(** * Shallow embedding of the ABR brush decoders (abr12.rs, abr6.rs)

    The byte source [R: Read + Seek] is modelled as an immutable byte
    sequence [src] together with a cursor position (a u64, kept in [Z]).
    Reads go through a small state-and-error monad [RM] over the cursor.
    Arithmetic on u16/u32/u64/usize is written with its wrap-around
    (release-build semantics). *)

From Stdlib Require Import ZArith List Lia Bool.
From Stdlib.Strings Require Import Byte.
Import ListNotations.
Open Scope Z_scope.

(** ** Results and errors *)

(** The outcome of a step: Rust's [Ok] and [Err], and [Panic] for a step
    that panics (the Rust call does not return). *)
Inductive result (T E : Type) : Type :=
| Ok (t : T)
| Err (e : E)
| Panic.
Arguments Ok {T E} t.
Arguments Err {T E} e.
Arguments Panic {T E}.

(** I/O failures of the byte source: a short read ([read_exact] hitting the
    end of the data) or a seek to a negative or overflowing position. *)
Inductive io_error : Type :=
| UnexpectedEof
| InvalidSeek.

(** [BrushError] as used by the decoders; [RleSizeMismatch] is the
    decompression error of the RLE codec (see [read_rle_data]). *)
Inductive BrushError : Type :=
| IoError (e : io_error)
| UnsupportedBrushType (ty : Z)
| UnsupportedBitDepth (depth : Z)
| RleSizeMismatch.

Inductive OpenError : Type :=
| OpenIoError (e : io_error)
| Found8bim.

Record ImageBrush : Type := mkImageBrush {
  width : Z;
  height : Z;
  depth : Z;
  data : list Byte.byte
}.

Record SampleBrush : Type := mkSampleBrush {
  s_width : Z;
  s_height : Z;
  s_depth : Z;
  s_data : list Byte.byte
}.

(** ** Machine integers *)

Definition add_u64 (a b : Z) : Z := (a + b) mod 2 ^ 64.
Definition sub_u16 (a b : Z) : Z := (a - b) mod 2 ^ 16.
Definition sub_u32 (a b : Z) : Z := (a - b) mod 2 ^ 32.
Definition mul_usize (a b : Z) : Z := (a * b) mod 2 ^ 64.
(** [!3] on a u64. *)
Definition not3_u64 : Z := 2 ^ 64 - 4.

Definition byte_val (b : Byte.byte) : Z := Z.of_N (Byte.to_N b).

(** Big-endian decoding of a byte string. *)
Definition be_value (bs : list Byte.byte) : Z :=
  fold_left (fun acc b => acc * 256 + byte_val b) bs 0.

Fixpoint bytes_eqb (a b : list Byte.byte) : bool :=
  match a, b with
  | [], [] => true
  | x :: a', y :: b' => Byte.eqb x y && bytes_eqb a' b'
  | _, _ => false
  end.

(** ** The reader monad *)

Definition RM (E T : Type) : Type := Z -> result T E * Z.

Definition ret {E T} (x : T) : RM E T := fun p => (Ok x, p).
Definition throw {E T} (e : E) : RM E T := fun p => (Err e, p).
Definition bind {E T U} (m : RM E T) (k : T -> RM E U) : RM E U :=
  fun p => match m p with
           | (Ok x, p') => k x p'
           | (Err e, p') => (Err e, p')
           | (Panic, p') => (Panic, p')
           end.
(** [try!] with an error conversion ([From]/[into]). *)
Definition lift {E E' T} (f : E -> E') (m : RM E T) : RM E' T :=
  fun p => match m p with
           | (Ok x, p') => (Ok x, p')
           | (Err e, p') => (Err (f e), p')
           | (Panic, p') => (Panic, p')
           end.

Notation "'let?' x ':=' m 'in' k" := (bind m (fun x => k))
  (at level 200, x name, m at level 100, right associativity).

Section Source.

(** The bytes of the source the decoder owns. *)
Variable src : list Byte.byte.

Definition src_len : Z := Z.of_nat (length src).

(** [read_exact] of [n] bytes: the bytes at the cursor, or a short read. *)
Definition read_exact (n : Z) : RM io_error (list Byte.byte) :=
  fun p =>
    if (0 <=? p) && (p + n <=? src_len)
    then (Ok (firstn (Z.to_nat n) (skipn (Z.to_nat p) src)), p + n)
    else (Err UnexpectedEof, p).

Definition read_u8 : RM io_error Z :=
  let? bs := read_exact 1 in ret (be_value bs).
Definition read_u16 : RM io_error Z :=
  let? bs := read_exact 2 in ret (be_value bs).
Definition read_u32 : RM io_error Z :=
  let? bs := read_exact 4 in ret (be_value bs).

(** [seek(SeekFrom::Start(p))]. *)
Definition seek_start (p : Z) : RM io_error Z := fun _ => (Ok p, p).

(** [seek(SeekFrom::Current(n))]: fails on a negative or overflowing
    target position. *)
Definition seek_current (n : Z) : RM io_error Z :=
  fun p =>
    let np := p + n in
    if (0 <=? np) && (np <? 2 ^ 64) then (Ok np, np) else (Err InvalidSeek, p).

(** [helper::tell] / [util::tell]. *)
Definition tell : RM io_error Z := seek_current 0.

(** [isize::MAX] on a 64-bit target. *)
Definition isize_max : Z := 2 ^ 63 - 1.

(** [vec![0; size]] of bytes: a request of more than [isize::MAX] bytes
    panics with "capacity overflow".  Whether the allocator can provide a
    smaller request depends on the memory of the system; its failure (an
    abort) is not modelled. *)
Definition vec_zeroed {E} (size : Z) : RM E unit :=
  fun p => if isize_max <? size then (Panic, p) else (Ok tt, p).

(** ** The shared RLE codec *)

(** Modelled from the spec: [util::read_rle_data] / [helper::read_rle_data]
    (the codec source is not part of this repository's listed files).
    Spec, 4.3: PackBits packets (a control byte [c] read as i8: [c >= 0]
    gives [c+1] literal bytes, [c < 0] other than [-128] gives [1-c]
    copies of the next byte, [-128] is a no-op); decompression proceeds
    until the cumulative output reaches the target size, and an output
    that differs from the target size is a decompression error.  The spec
    does not say how a scanline's packet stream is delimited, so the
    scanline count [height] does not frame the packets here.  Each packet
    reads at least one byte, so [fuel] larger than the source never runs
    out before a read fails. *)
Fixpoint unpack_bits (fuel : nat) (size : Z) (acc : list Byte.byte)
  : RM io_error (list Byte.byte) :=
  match fuel with
  | O => throw UnexpectedEof
  | S f =>
      if size <=? Z.of_nat (length acc) then ret acc else
      let? c := read_u8 in
      if c <? 128 then
        let? lit := read_exact (c + 1) in unpack_bits f size (acc ++ lit)
      else if c =? 128 then unpack_bits f size acc
      else
        let? v := read_exact 1 in
        unpack_bits f size (acc ++ concat (repeat v (Z.to_nat (257 - c))))
  end.

(** Modelled from the spec: the codec entry point, with the final size
    check ("produce exactly that many decompressed bytes or fail"). *)
Definition read_rle_data (height size : Z) : RM BrushError (list Byte.byte) :=
  let? out := lift IoError (unpack_bits (S (length src)) size []) in
  if Z.of_nat (length out) =? size then ret out else throw RleSizeMismatch.

(** ** abr12.rs: the legacy decoder (versions 1 and 2) *)

(** [Decoder<R>]; [rdr] is the reader, i.e. its cursor over [src]. *)
Record Decoder : Type := mkDecoder {
  rdr : Z;
  version : Z;
  count : Z;
  next_brush_pos : Z
}.

Definition open (r version count : Z) : result Decoder OpenError :=
  match tell r with
  | (Ok cur_pos, r') => Ok (mkDecoder r' version count cur_pos)
  | (Err e, _) => Err (OpenIoError e)
  | (Panic, _) => Panic
  end.

(** [do_brush_head]: returns where the brush after this one is located. *)
Definition do_brush_head (brush_pos : Z) : RM io_error Z :=
  let? _ := seek_start brush_pos in
  let? len := read_u16 in
  ret (add_u64 (add_u64 brush_pos 2) len).

(** [do_brush_body], for a decoder of format version [version]. *)
Definition do_brush_body (version : Z) : RM BrushError ImageBrush :=
  let? ty := lift IoError read_u16 in
  if negb (ty =? 2) then throw (UnsupportedBrushType ty) else
  let? _misc := lift IoError read_u32 in
  let? _spacing := lift IoError read_u16 in
  let? _ := (if version =? 2 then
               let? len := lift IoError read_u32 in
               let len_in_bytes := 2 * len in
               lift IoError (seek_current len_in_bytes)
             else ret 0) in
  let? _antialiasing := lift IoError read_u8 in
  let? top := lift IoError read_u16 in
  let? left := lift IoError read_u16 in
  let? bottom := lift IoError read_u16 in
  let? right := lift IoError read_u16 in
  let? _topl := lift IoError read_u32 in
  let? _leftl := lift IoError read_u32 in
  let? _bottoml := lift IoError read_u32 in
  let? _rightl := lift IoError read_u32 in
  let? depth := lift IoError read_u16 in
  if negb (depth =? 8) then throw (UnsupportedBitDepth depth) else
  let? c := lift IoError read_u8 in
  let compressed := negb (c =? 0) in
  let width := sub_u16 right left in
  let height := sub_u16 bottom top in
  let size := mul_usize (mul_usize width height) (Z.shiftr depth 3) in
  let? data := (if compressed then read_rle_data height size
                else let? _ := vec_zeroed size in lift IoError (read_exact size)) in
  ret (mkImageBrush width height depth data).

(** [next_brush]: the output of the call and the decoder after it. *)
Definition next_brush (dec : Decoder)
  : option (result ImageBrush BrushError) * Decoder :=
  if count dec =? 0 then (None, dec) else
  let cnt := count dec - 1 in
  match do_brush_head (next_brush_pos dec) (rdr dec) with
  | (Ok nbp, r) =>
      let (res, r') := do_brush_body (version dec) r in
      (Some res, mkDecoder r' (version dec) cnt nbp)
  | (Err e, r) =>
      (Some (Err (IoError e)), mkDecoder r (version dec) 0 (next_brush_pos dec))
  (* [do_brush_head] never panics ([do_brush_head_no_panic] below). *)
  | (Panic, r) => (Some Panic, mkDecoder r (version dec) cnt (next_brush_pos dec))
  end.

(** ** abr6.rs: the generation-6 decoder *)

Record Abr6Decoder : Type := mkAbr6Decoder {
  rdr6 : Z;
  subversion : Z;
  sample_section_end : Z;
  next_brush_pos6 : Z
}.

(** ['8' as u8, 'b' as u8, 'i' as u8, 'm' as u8] and the same for "samp". *)
Definition tag_8bim : list Byte.byte := [x38; x62; x69; x6d].
Definition tag_samp : list Byte.byte := [x73; x61; x6d; x70].

(** The section-finding loop of [open].  Every round reads 8 bytes and
    seeks forward, so [fuel] larger than the source never runs out before
    a read fails. *)
Fixpoint find_sample (fuel : nat) : RM OpenError unit :=
  match fuel with
  | O => throw (OpenIoError UnexpectedEof)
  | S f =>
      let? buf := lift OpenIoError (read_exact 4) in
      if bytes_eqb buf tag_8bim then throw Found8bim else
      let? buf' := lift OpenIoError (read_exact 4) in
      if bytes_eqb buf' tag_samp then ret tt else
      let? len := lift OpenIoError read_u32 in
      let? _ := lift OpenIoError (seek_current len) in
      find_sample f
  end.

Definition open6_steps : RM OpenError (Z * Z) :=
  let? _ := find_sample (S (length src)) in
  let? len := lift OpenIoError read_u32 in
  let? cur := lift OpenIoError tell in
  ret (len, cur).

(** [abr6::open], from the reader's cursor [r]. *)
Definition open6 (r subversion : Z) : result Abr6Decoder OpenError :=
  match open6_steps r with
  | (Ok (len, cur), r') => Ok (mkAbr6Decoder r' subversion (add_u64 cur len) cur)
  | (Err e, _) => Err e
  | (Panic, _) => Panic
  end.

(** [process_brush_length]: the position where the next brush starts. *)
Definition process_brush_length (brush_pos : Z) : RM io_error Z :=
  let? _ := seek_start brush_pos in
  let? len := read_u32 in
  let end_pos := add_u64 (add_u64 brush_pos 4) len in
  ret (Z.land (add_u64 end_pos 3) not3_u64).

Definition process_brush_body (subversion : Z) : RM BrushError SampleBrush :=
  let? _ := lift IoError (seek_current (if subversion =? 1 then 47 else 301)) in
  let? top := lift IoError read_u32 in
  let? left := lift IoError read_u32 in
  let? bottom := lift IoError read_u32 in
  let? right := lift IoError read_u32 in
  let? depth := lift IoError read_u16 in
  if negb (depth =? 8) then throw (UnsupportedBitDepth depth) else
  let? c := lift IoError read_u8 in
  let compressed := negb (c =? 0) in
  let width := sub_u32 right left in
  let height := sub_u32 bottom top in
  let size := mul_usize (mul_usize width height) (Z.shiftr depth 3) in
  let? data := (if compressed then read_rle_data height size
                else let? _ := vec_zeroed size in lift IoError (read_exact size)) in
  ret (mkSampleBrush width height depth data).

Definition next_brush6 (dec : Abr6Decoder)
  : option (result SampleBrush BrushError) * Abr6Decoder :=
  if sample_section_end dec <=? next_brush_pos6 dec then (None, dec) else
  match process_brush_length (next_brush_pos6 dec) (rdr6 dec) with
  | (Ok nbp, r) =>
      let (res, r') := process_brush_body (subversion dec) r in
      (Some res, mkAbr6Decoder r' (subversion dec) (sample_section_end dec) nbp)
  | (Err e, r) =>
      (Some (Err (IoError e)),
       mkAbr6Decoder r (subversion dec) (sample_section_end dec) (sample_section_end dec))
  (* [process_brush_length] never panics ([process_brush_length_no_panic]). *)
  | (Panic, r) =>
      (Some Panic, mkAbr6Decoder r (subversion dec) (sample_section_end dec) (next_brush_pos6 dec))
  end.

(** ** Repeated calls *)

(** The decoder after [k] calls of [next_brush]. *)
Fixpoint iter_next (k : nat) (dec : Decoder) : Decoder :=
  match k with
  | O => dec
  | S k' => iter_next k' (snd (next_brush dec))
  end.

(** The output of the call number [k] (counting from 0). *)
Definition call_out (k : nat) (dec : Decoder) : option (result ImageBrush BrushError) :=
  fst (next_brush (iter_next k dec)).

Fixpoint iter_next6 (k : nat) (dec : Abr6Decoder) : Abr6Decoder :=
  match k with
  | O => dec
  | S k' => iter_next6 k' (snd (next_brush6 dec))
  end.

Definition call_out6 (k : nat) (dec : Abr6Decoder) : option (result SampleBrush BrushError) :=
  fst (next_brush6 (iter_next6 k dec)).

(** The brush headers reached from [p] can be read [n] times in a row:
    each seek and 16-bit length read of [do_brush_head] succeeds. *)
Fixpoint heads_navigable (p : Z) (n : nat) : bool :=
  match n with
  | O => true
  | S n' =>
      match do_brush_head p 0 with
      | (Ok q, _) => heads_navigable q n'
      | _ => false
      end
  end.

End Source.

(** ** Concrete sources used by the checks below *)

Definition byte_of_Z (z : Z) : Byte.byte :=
  match Byte.of_N (Z.to_N z) with Some b => b | None => x00 end.

Definition bytes_of (l : list Z) : list Byte.byte := map byte_of_Z l.

(** A resource stream whose sample section starts at offset 25 (not a
    multiple of 4): a skipped block with a 1-byte payload, then the
    "samp" block of length 8, holding one zero-length brush record. *)
Definition gen6_unaligned_src : list Byte.byte :=
  bytes_of ([97; 98; 99; 100; 101; 102; 103; 104; 0; 0; 0; 1; 7;
             97; 98; 99; 100; 115; 97; 109; 112; 0; 0; 0; 8;
             0; 0; 0; 0] ++ repeat 0 40).

(** A version-2 legacy brush record: length 50, type 2, misc, spacing,
    a name of one UCS-2 unit, anti-aliasing, 16-bit bounds (0, 0, 2, 2),
    the four 32-bit bounds, depth 8, not compressed, 4 data bytes. *)
Definition legacy_sample_src : list Byte.byte :=
  bytes_of [0; 50; 0; 2; 1; 2; 3; 4; 0; 9; 0; 0; 0; 1; 65; 0; 1;
            0; 0; 0; 0; 0; 2; 0; 2;
            0; 0; 0; 0; 0; 0; 0; 0; 0; 0; 0; 2; 0; 0; 0; 2;
            0; 8; 0; 10; 20; 30; 40].

(** A legacy record of length 2 with brush type 3, then the record above. *)
Definition legacy_badtype_src : list Byte.byte :=
  bytes_of [0; 2; 0; 3] ++ legacy_sample_src.

(** A legacy source too short to hold a length field. *)
Definition legacy_truncated_src : list Byte.byte := bytes_of [0].

(** A "samp" block of declared length 8 whose data stops after 2 bytes. *)
Definition gen6_truncated_src : list Byte.byte :=
  bytes_of [97; 98; 99; 100; 115; 97; 109; 112; 0; 0; 0; 8; 0; 0].

(** A resource block as [open] steps over it: a 4-byte signature, a
    4-byte key, a 4-byte big-endian length and that many payload bytes. *)
Record ResourceBlock : Type := mkResourceBlock {
  blk_sig : list Byte.byte;
  blk_key : list Byte.byte;
  blk_len : list Byte.byte;
  blk_payload : list Byte.byte
}.

Definition encode_block (b : ResourceBlock) : list Byte.byte :=
  blk_sig b ++ blk_key b ++ blk_len b ++ blk_payload b.

(** A well-formed block that is neither an "8bim" signature nor a "samp"
    key, so [open] reads its length and skips it. *)
Definition block_skipped (b : ResourceBlock) : bool :=
  (length (blk_sig b) =? 4)%nat && (length (blk_key b) =? 4)%nat &&
  (length (blk_len b) =? 4)%nat &&
  negb (bytes_eqb (blk_sig b) tag_8bim) && negb (bytes_eqb (blk_key b) tag_samp) &&
  (Z.of_nat (length (blk_payload b)) =? be_value (blk_len b)).

(** ** General facts about the reader monad *)

Lemma bind_ok {E T U} (m : RM E T) (k : T -> RM E U) p x p' :
  bind m k p = (Ok x, p') ->
  exists y p1, m p = (Ok y, p1) /\ k y p1 = (Ok x, p').
Proof.
  unfold bind. destruct (m p) as [[y|e|] p1]; intros H; [eauto | discriminate | discriminate].
Qed.

Lemma lift_ok {E E' T} (f : E -> E') (m : RM E T) p x p' :
  lift f m p = (Ok x, p') -> m p = (Ok x, p').
Proof.
  unfold lift. destruct (m p) as [[y|e|] p1]; intros H; inversion H; reflexivity.
Qed.

Lemma ret_ok {E T} (x y : T) p p' : @ret E T x p = (Ok y, p') -> x = y /\ p = p'.
Proof. unfold ret. intros H. inversion H. auto. Qed.

Lemma throw_ok {E T} (e : E) (y : T) p p' : throw e p = (Ok y, p') -> False.
Proof. unfold throw. discriminate. Qed.

Lemma read_exact_ok_length src n p bs p' :
  0 <= n -> read_exact src n p = (Ok bs, p') -> Z.of_nat (length bs) = n.
Proof.
  unfold read_exact, src_len. intros Hn.
  destruct ((0 <=? p) && (p + n <=? Z.of_nat (length src))) eqn:E;
    intros H; inversion H; subst.
  apply andb_prop in E as [E1 E2]. apply Z.leb_le in E1, E2.
  rewrite firstn_length_le; [lia|].
  rewrite length_skipn. lia.
Qed.

(** Peels a successful run of a [let?] chain into its steps. *)
Ltac peel H :=
  repeat match type of H with
  | bind _ _ _ = (Ok _, _) =>
      let y := fresh "v" in let p1 := fresh "p" in let Hm := fresh "Hstep" in
      apply bind_ok in H; destruct H as (y & p1 & Hm & H); cbv beta in H
  | (if ?c then _ else _) _ = (Ok _, _) =>
      let E := fresh "Ec" in destruct c eqn:E
  | throw _ _ = (Ok _, _) => exfalso; exact (throw_ok _ _ _ _ H)
  | ret _ _ = (Ok _, _) =>
      let Hx := fresh "Hret" in
      apply ret_ok in H; destruct H as [Hx H]
  end.

Lemma sub_u16_range a b : 0 <= sub_u16 a b < 2 ^ 16.
Proof. unfold sub_u16. apply Z.mod_pos_bound. lia. Qed.

Lemma sub_u32_range a b : 0 <= sub_u32 a b < 2 ^ 32.
Proof. unfold sub_u32. apply Z.mod_pos_bound. lia. Qed.

Lemma mul_usize_exact a b : 0 <= a < 2 ^ 32 -> 0 <= b < 2 ^ 32 ->
  mul_usize (mul_usize a b) 1 = a * b.
Proof.
  intros Ha Hb. unfold mul_usize.
  assert (0 <= a * b < 2 ^ 64) by nia.
  rewrite (Z.mod_small (a * b)) by lia.
  rewrite Z.mul_1_r. apply Z.mod_small. lia.
Qed.

Lemma read_rle_data_length src h size p d p' :
  read_rle_data src h size p = (Ok d, p') -> Z.of_nat (length d) = size.
Proof.
  unfold read_rle_data. intros H. peel H.
  subst. apply Z.eqb_eq. assumption.
Qed.

Lemma do_brush_body_ok src v p b p' :
  do_brush_body src v p = (Ok b, p') ->
  depth b = 8 /\
  Z.of_nat (length (data b)) = width b * height b * Z.shiftr (depth b) 3.
Proof.
  unfold do_brush_body. intros H. peel H. subst b. cbn [depth data width height].
  apply negb_false_iff, Z.eqb_eq in Ec0. subst. split; [reflexivity|].
  change (Z.shiftr 8 3) with 1 in *. rewrite Z.mul_1_r.
  pose proof (sub_u16_range v8 v6). pose proof (sub_u16_range v7 v5).
  rewrite mul_usize_exact in Hstep14 by lia.
  destruct (negb (v14 =? 0)).
  - eapply read_rle_data_length; eassumption.
  - peel Hstep14. apply lift_ok in Hstep14. eapply read_exact_ok_length; [|eassumption].
    nia.
Qed.

Lemma process_brush_body_ok src sv p b p' :
  process_brush_body src sv p = (Ok b, p') ->
  s_depth b = 8 /\
  Z.of_nat (length (s_data b)) = s_width b * s_height b * Z.shiftr (s_depth b) 3.
Proof.
  unfold process_brush_body. intros H. peel H. subst b. cbn [s_depth s_data s_width s_height].
  apply negb_false_iff, Z.eqb_eq in Ec. subst. split; [reflexivity|].
  change (Z.shiftr 8 3) with 1 in *. rewrite Z.mul_1_r.
  pose proof (sub_u32_range v3 v1). pose proof (sub_u32_range v2 v0).
  rewrite mul_usize_exact in Hstep6 by lia.
  destruct (negb (v5 =? 0)).
  - eapply read_rle_data_length; eassumption.
  - peel Hstep6. apply lift_ok in Hstep6. eapply read_exact_ok_length; [|eassumption].
    nia.
Qed.

Lemma next_brush_ok_body src dec b :
  fst (next_brush src dec) = Some (Ok b) ->
  exists p p', do_brush_body src (version dec) p = (Ok b, p').
Proof.
  unfold next_brush. destruct (count dec =? 0); [discriminate|].
  destruct (do_brush_head src (next_brush_pos dec) (rdr dec)) as [[nbp|e|] r].
  - destruct (do_brush_body src (version dec) r) as [res r'] eqn:E.
    cbn. intros H. inversion H; subst. eauto.
  - discriminate.
  - discriminate.
Qed.

Lemma next_brush6_ok_body src dec b :
  fst (next_brush6 src dec) = Some (Ok b) ->
  exists p p', process_brush_body src (subversion dec) p = (Ok b, p').
Proof.
  unfold next_brush6. destruct (sample_section_end dec <=? next_brush_pos6 dec); [discriminate|].
  destruct (process_brush_length src (next_brush_pos6 dec) (rdr6 dec)) as [[nbp|e|] r].
  - destruct (process_brush_body src (subversion dec) r) as [res r'] eqn:E.
    cbn. intros H. inversion H; subst. eauto.
  - discriminate.
  - discriminate.
Qed.

(** ** Bounds of reads and of the offset arithmetic *)

Lemma read_exact_ok_bounds src n p bs p' :
  read_exact src n p = (Ok bs, p') -> 0 <= p /\ p + n <= src_len src /\ p' = p + n.
Proof.
  unfold read_exact.
  destruct ((0 <=? p) && (p + n <=? src_len src)) eqn:E; intros H; inversion H; subst.
  apply andb_prop in E as [E1 E2]. apply Z.leb_le in E1, E2. auto.
Qed.

Lemma byte_val_range b : 0 <= byte_val b < 256.
Proof. unfold byte_val. pose proof (Byte.to_N_bounded b). lia. Qed.

Lemma be_value_fold_range bs : forall acc, 0 <= acc ->
  acc * 256 ^ Z.of_nat (length bs)
  <= fold_left (fun acc b => acc * 256 + byte_val b) bs acc
  < (acc + 1) * 256 ^ Z.of_nat (length bs).
Proof.
  induction bs as [|b bs IH]; intros acc Hacc.
  - cbn. lia.
  - cbn [fold_left length]. pose proof (byte_val_range b).
    rewrite Nat2Z.inj_succ, Z.pow_succ_r by lia.
    specialize (IH (acc * 256 + byte_val b) ltac:(lia)).
    assert (0 < 256 ^ Z.of_nat (length bs)) by (apply Z.pow_pos_nonneg; lia).
    nia.
Qed.

Lemma read_u32_ok src p v p' :
  read_u32 src p = (Ok v, p') ->
  0 <= p /\ p + 4 <= src_len src /\ 0 <= v < 2 ^ 32.
Proof.
  unfold read_u32. intros H. peel H. subst.
  assert (Hl : Z.of_nat (length v0) = 4)
    by (eapply read_exact_ok_length; [lia | exact Hstep]).
  apply read_exact_ok_bounds in Hstep as (H1 & H2 & _).
  pose proof (be_value_fold_range v0 0 ltac:(lia)) as Hr.
  unfold be_value. rewrite Hl in Hr. cbn in Hr. lia.
Qed.

Lemma land_not3 x : 0 <= x < 2 ^ 64 -> Z.land x not3_u64 = x / 4 * 4.
Proof.
  intros Hx.
  replace not3_u64 with (Z.ldiff (Z.ones 64) (Z.ones 2)) by reflexivity.
  replace (Z.land x (Z.ldiff (Z.ones 64) (Z.ones 2)))
    with (Z.ldiff (Z.land x (Z.ones 64)) (Z.ones 2)).
  - rewrite Z.land_ones, Z.mod_small by lia.
    rewrite Z.ldiff_ones_r by lia.
    rewrite Z.shiftl_mul_pow2, Z.shiftr_div_pow2 by lia. reflexivity.
  - apply Z.bits_inj'. intros n Hn.
    rewrite Z.ldiff_spec, !Z.land_spec, Z.ldiff_spec.
    destruct (Z.testbit x n), (Z.testbit (Z.ones 64) n), (Z.testbit (Z.ones 2) n);
      reflexivity.
Qed.

(** A successful length read at [p] moves forward to a multiple of 4. *)
Lemma process_brush_length_ok src p r nbp r' :
  src_len src < 2 ^ 63 ->
  process_brush_length src p r = (Ok nbp, r') ->
  p <= nbp /\ nbp mod 4 = 0.
Proof.
  intros HL H. unfold process_brush_length in H. peel H. subst.
  assert (p0 = p) by (unfold seek_start in Hstep; inversion Hstep; reflexivity).
  subst p0.
  apply read_u32_ok in Hstep0 as (H1 & H2 & H3).
  unfold add_u64.
  rewrite (Z.mod_small (p + 4)) by lia.
  rewrite (Z.mod_small (p + 4 + v0)) by lia.
  rewrite (Z.mod_small (p + 4 + v0 + 3)) by lia.
  rewrite land_not3 by lia.
  pose proof (Z.mod_pos_bound (p + 4 + v0 + 3) 4 ltac:(lia)).
  pose proof (Z.div_mod (p + 4 + v0 + 3) 4 ltac:(lia)).
  split; [lia|]. apply Z.mod_mul. lia.
Qed.

(** ** Facts about single calls and repeated calls *)

Lemma do_brush_head_cursor_irrelevant src p r r2 :
  do_brush_head src p r = do_brush_head src p r2.
Proof. reflexivity. Qed.

Lemma process_brush_length_cursor_irrelevant src p r r2 :
  process_brush_length src p r = process_brush_length src p r2.
Proof. reflexivity. Qed.

Lemma do_brush_head_no_panic src p r r' :
  do_brush_head src p r <> (Panic, r').
Proof.
  unfold do_brush_head, read_u16, bind, seek_start, read_exact, ret.
  destruct (_ && _); discriminate.
Qed.

Lemma process_brush_length_no_panic src p r r' :
  process_brush_length src p r <> (Panic, r').
Proof.
  unfold process_brush_length, read_u32, bind, seek_start, read_exact, ret.
  destruct (_ && _); discriminate.
Qed.

Lemma next_brush_none src dec :
  fst (next_brush src dec) = None -> next_brush src dec = (None, dec).
Proof.
  unfold next_brush. destruct (count dec =? 0); [reflexivity|].
  destruct (do_brush_head src (next_brush_pos dec) (rdr dec)) as [[nbp|e|] r].
  - destruct (do_brush_body src (version dec) r). discriminate.
  - discriminate.
  - discriminate.
Qed.

Lemma next_brush6_none src dec :
  fst (next_brush6 src dec) = None -> next_brush6 src dec = (None, dec).
Proof.
  unfold next_brush6. destruct (sample_section_end dec <=? next_brush_pos6 dec); [reflexivity|].
  destruct (process_brush_length src (next_brush_pos6 dec) (rdr6 dec)) as [[nbp|e|] r].
  - destruct (process_brush_body src (subversion dec) r). discriminate.
  - discriminate.
  - discriminate.
Qed.

Lemma iter_next_add src k m dec :
  iter_next src (k + m) dec = iter_next src m (iter_next src k dec).
Proof. revert dec. induction k; intros dec; simpl; auto. Qed.

Lemma iter_next6_add src k m dec :
  iter_next6 src (k + m) dec = iter_next6 src m (iter_next6 src k dec).
Proof. revert dec. induction k; intros dec; simpl; auto. Qed.

Lemma iter_next_fixed src dec :
  next_brush src dec = (None, dec) -> forall k, iter_next src k dec = dec.
Proof. intros H k. induction k; simpl; [reflexivity|]. rewrite H. exact IHk. Qed.

Lemma iter_next6_fixed src dec :
  next_brush6 src dec = (None, dec) -> forall k, iter_next6 src k dec = dec.
Proof. intros H k. induction k; simpl; [reflexivity|]. rewrite H. exact IHk. Qed.

Lemma call_out_absorbing src dec k :
  call_out src k dec = None -> forall j, (k <= j)%nat -> call_out src j dec = None.
Proof.
  unfold call_out. intros H j Hj.
  apply next_brush_none in H.
  replace j with (k + (j - k))%nat by lia.
  rewrite iter_next_add, (iter_next_fixed src _ H), H. reflexivity.
Qed.

Lemma call_out6_absorbing src dec k :
  call_out6 src k dec = None -> forall j, (k <= j)%nat -> call_out6 src j dec = None.
Proof.
  unfold call_out6. intros H j Hj.
  apply next_brush6_none in H.
  replace j with (k + (j - k))%nat by lia.
  rewrite iter_next6_add, (iter_next6_fixed src _ H), H. reflexivity.
Qed.

Lemma next_brush_exhausted src dec :
  count dec = 0 -> next_brush src dec = (None, dec).
Proof. intros H. unfold next_brush. rewrite H. reflexivity. Qed.

Lemma next_brush6_exhausted src dec :
  sample_section_end dec <= next_brush_pos6 dec -> next_brush6 src dec = (None, dec).
Proof.
  intros H. unfold next_brush6. apply Z.leb_le in H. rewrite H. reflexivity.
Qed.

(** A live legacy decoder's next call does not look at its cursor. *)
Lemma next_brush_cursor_irrelevant src dec r2 :
  count dec <> 0 ->
  next_brush src dec
  = next_brush src (mkDecoder r2 (version dec) (count dec) (next_brush_pos dec)).
Proof.
  intros H. unfold next_brush. cbn [count version next_brush_pos rdr].
  apply Z.eqb_neq in H. rewrite H. reflexivity.
Qed.

Lemma next_brush6_cursor_irrelevant src dec r2 :
  next_brush_pos6 dec < sample_section_end dec ->
  next_brush6 src dec
  = next_brush6 src (mkAbr6Decoder r2 (subversion dec) (sample_section_end dec)
                                    (next_brush_pos6 dec)).
Proof.
  intros H. unfold next_brush6. cbn [subversion sample_section_end next_brush_pos6 rdr6].
  destruct (sample_section_end dec <=? next_brush_pos6 dec) eqn:E.
  - apply Z.leb_le in E. lia.
  - reflexivity.
Qed.

(** The whole future of a legacy decoder does not depend on its cursor. *)
Lemma call_out_cursor_irrelevant src dec r2 k :
  call_out src k dec
  = call_out src k (mkDecoder r2 (version dec) (count dec) (next_brush_pos dec)).
Proof.
  unfold call_out. destruct (Z.eq_dec (count dec) 0) as [H|H].
  - rewrite (iter_next_fixed src dec (next_brush_exhausted src dec H)).
    set (d2 := mkDecoder r2 (version dec) (count dec) (next_brush_pos dec)).
    assert (H2 : count d2 = 0) by exact H.
    rewrite (iter_next_fixed src d2 (next_brush_exhausted src d2 H2)).
    rewrite (next_brush_exhausted src dec H), (next_brush_exhausted src d2 H2).
    reflexivity.
  - destruct k as [|k]; simpl; rewrite <- (next_brush_cursor_irrelevant src dec r2 H);
      reflexivity.
Qed.

Lemma call_out6_cursor_irrelevant src dec r2 k :
  call_out6 src k dec
  = call_out6 src k (mkAbr6Decoder r2 (subversion dec) (sample_section_end dec)
                                   (next_brush_pos6 dec)).
Proof.
  unfold call_out6.
  destruct (Z_lt_ge_dec (next_brush_pos6 dec) (sample_section_end dec)) as [H|H].
  - destruct k as [|k]; simpl; rewrite <- (next_brush6_cursor_irrelevant src dec r2 H);
      reflexivity.
  - assert (H1 : sample_section_end dec <= next_brush_pos6 dec) by lia.
    set (d2 := mkAbr6Decoder r2 (subversion dec) (sample_section_end dec)
                             (next_brush_pos6 dec)).
    assert (H2 : sample_section_end d2 <= next_brush_pos6 d2) by exact H1.
    rewrite (iter_next6_fixed src dec (next_brush6_exhausted src dec H1)).
    rewrite (iter_next6_fixed src d2 (next_brush6_exhausted src d2 H2)).
    rewrite (next_brush6_exhausted src dec H1), (next_brush6_exhausted src d2 H2).
    reflexivity.
Qed.

Lemma next_brush_head_ok src dec nbp r :
  count dec <> 0 ->
  do_brush_head src (next_brush_pos dec) (rdr dec) = (Ok nbp, r) ->
  next_brush src dec
  = (Some (fst (do_brush_body src (version dec) r)),
     mkDecoder (snd (do_brush_body src (version dec) r)) (version dec) (count dec - 1) nbp).
Proof.
  intros Hc Hh. unfold next_brush. apply Z.eqb_neq in Hc. rewrite Hc, Hh.
  destruct (do_brush_body src (version dec) r). reflexivity.
Qed.

Lemma next_brush_head_err src dec e r :
  count dec <> 0 ->
  do_brush_head src (next_brush_pos dec) (rdr dec) = (Err e, r) ->
  next_brush src dec
  = (Some (Err (IoError e)), mkDecoder r (version dec) 0 (next_brush_pos dec)).
Proof.
  intros Hc Hh. unfold next_brush. apply Z.eqb_neq in Hc. rewrite Hc, Hh. reflexivity.
Qed.

Lemma next_brush6_head_ok src dec nbp r :
  next_brush_pos6 dec < sample_section_end dec ->
  process_brush_length src (next_brush_pos6 dec) (rdr6 dec) = (Ok nbp, r) ->
  next_brush6 src dec
  = (Some (fst (process_brush_body src (subversion dec) r)),
     mkAbr6Decoder (snd (process_brush_body src (subversion dec) r)) (subversion dec)
                   (sample_section_end dec) nbp).
Proof.
  intros Hc Hh. unfold next_brush6.
  destruct (sample_section_end dec <=? next_brush_pos6 dec) eqn:E.
  - apply Z.leb_le in E. lia.
  - rewrite Hh. destruct (process_brush_body src (subversion dec) r). reflexivity.
Qed.

Lemma next_brush6_head_err src dec e r :
  next_brush_pos6 dec < sample_section_end dec ->
  process_brush_length src (next_brush_pos6 dec) (rdr6 dec) = (Err e, r) ->
  next_brush6 src dec
  = (Some (Err (IoError e)),
     mkAbr6Decoder r (subversion dec) (sample_section_end dec) (sample_section_end dec)).
Proof.
  intros Hc Hh. unfold next_brush6.
  destruct (sample_section_end dec <=? next_brush_pos6 dec) eqn:E.
  - apply Z.leb_le in E. lia.
  - rewrite Hh. reflexivity.
Qed.

Lemma legacy_live_calls src n :
  forall dec, count dec = Z.of_nat n ->
  heads_navigable src (next_brush_pos dec) n = true ->
  forall k, call_out src k dec <> None <-> (k < n)%nat.
Proof.
  induction n as [|n IH]; intros dec Hc Hn k.
  - unfold call_out.
    rewrite (iter_next_fixed src dec (next_brush_exhausted src dec Hc)).
    rewrite (next_brush_exhausted src dec Hc). simpl. split; [congruence | lia].
  - simpl in Hn.
    destruct (do_brush_head src (next_brush_pos dec) 0) as [[q|e|] r] eqn:Eh;
      [|discriminate|discriminate].
    rewrite (do_brush_head_cursor_irrelevant src _ 0 (rdr dec)) in Eh.
    assert (Hc0 : count dec <> 0) by lia.
    pose proof (next_brush_head_ok src dec q r Hc0 Eh) as Hnb.
    destruct k as [|k].
    + unfold call_out. simpl. rewrite Hnb. simpl. split; [lia | discriminate].
    + unfold call_out. simpl. rewrite Hnb. simpl.
      set (d' := mkDecoder _ (version dec) (count dec - 1) q).
      assert (Hc' : count d' = Z.of_nat n) by (simpl; lia).
      rewrite (IH d' Hc' Hn k). lia.
Qed.

(** ** Claims *)

(** C1: when every brush header the legacy decoder reaches can be read
    (the seek and the 16-bit length read succeed) and the declared count
    is N, the call number k returns [Some _] exactly when k < N, whatever
    the outcome ([Ok] or a body error) of each brush. *)
Theorem legacy_count_exact_calls src dec :
  0 <= count dec ->
  heads_navigable src (next_brush_pos dec) (Z.to_nat (count dec)) = true ->
  forall k, call_out src k dec <> None <-> (k < Z.to_nat (count dec))%nat.
Proof.
  intros H0 Hn. apply legacy_live_calls; [lia | exact Hn].
Qed.

Lemma legacy_count_exact_calls_witness :
  call_out legacy_badtype_src 1 (mkDecoder 0 2 2 0) <> None
  <-> (1 < Z.to_nat (count (mkDecoder 0 2 2 0)))%nat.
Proof.
  apply legacy_count_exact_calls; [cbn; lia | vm_compute; reflexivity].
Defined.

(** C3: for both decoders, when the length read of a call succeeds but the
    body fails, the call returns [Some (Err e)] with the next-brush offset
    already committed, and every later call behaves as it would after a
    successful body, wherever that body would have left the reader. *)
Theorem body_error_keeps_iterating :
  (forall src dec nbp r e r',
     count dec <> 0 ->
     do_brush_head src (next_brush_pos dec) (rdr dec) = (Ok nbp, r) ->
     do_brush_body src (version dec) r = (Err e, r') ->
     next_brush src dec = (Some (Err e), mkDecoder r' (version dec) (count dec - 1) nbp) /\
     forall r_ok k,
       call_out src k (mkDecoder r' (version dec) (count dec - 1) nbp)
       = call_out src k (mkDecoder r_ok (version dec) (count dec - 1) nbp)) /\
  (forall src dec nbp r e r',
     next_brush_pos6 dec < sample_section_end dec ->
     process_brush_length src (next_brush_pos6 dec) (rdr6 dec) = (Ok nbp, r) ->
     process_brush_body src (subversion dec) r = (Err e, r') ->
     next_brush6 src dec
     = (Some (Err e), mkAbr6Decoder r' (subversion dec) (sample_section_end dec) nbp) /\
     forall r_ok k,
       call_out6 src k (mkAbr6Decoder r' (subversion dec) (sample_section_end dec) nbp)
       = call_out6 src k (mkAbr6Decoder r_ok (subversion dec) (sample_section_end dec) nbp)).
Proof.
  split.
  - intros src dec nbp r e r' Hc Hh Hb. split.
    + rewrite (next_brush_head_ok src dec nbp r Hc Hh), Hb. reflexivity.
    + intros r_ok k.
      exact (call_out_cursor_irrelevant src (mkDecoder r' (version dec) (count dec - 1) nbp) r_ok k).
  - intros src dec nbp r e r' Hc Hh Hb. split.
    + rewrite (next_brush6_head_ok src dec nbp r Hc Hh), Hb. reflexivity.
    + intros r_ok k.
      exact (call_out6_cursor_irrelevant src
               (mkAbr6Decoder r' (subversion dec) (sample_section_end dec) nbp) r_ok k).
Qed.

Lemma body_error_keeps_iterating_witness :
  (next_brush legacy_badtype_src (mkDecoder 0 2 2 0)
   = (Some (Err (UnsupportedBrushType 3)), mkDecoder 4 2 (2 - 1) 4) /\
   forall r_ok k,
     call_out legacy_badtype_src k (mkDecoder 4 2 (2 - 1) 4)
     = call_out legacy_badtype_src k (mkDecoder r_ok 2 (2 - 1) 4)) /\
  (next_brush6 gen6_unaligned_src (mkAbr6Decoder 25 1 33 25)
   = (Some (Err (IoError UnexpectedEof)), mkAbr6Decoder 76 1 33 32) /\
   forall r_ok k,
     call_out6 gen6_unaligned_src k (mkAbr6Decoder 76 1 33 32)
     = call_out6 gen6_unaligned_src k (mkAbr6Decoder r_ok 1 33 32)).
Proof.
  split.
  - apply (proj1 body_error_keeps_iterating legacy_badtype_src (mkDecoder 0 2 2 0) 4 2
             (UnsupportedBrushType 3) 4);
      [cbn; lia | vm_compute; reflexivity | vm_compute; reflexivity].
  - apply (proj2 body_error_keeps_iterating gen6_unaligned_src (mkAbr6Decoder 25 1 33 25)
             32 29 (IoError UnexpectedEof) 76);
      [cbn; lia | vm_compute; reflexivity | vm_compute; reflexivity].
Defined.

(** C4: for both decoders, when the seek or the length read of a call
    fails, the call returns [Some (Err _)], the decoder is forced into its
    exhausted state (legacy: count 0; generation 6: next-brush offset at
    the section end) and every later call returns [None]. *)
Theorem nav_error_stops_iteration :
  (forall src dec e r,
     count dec <> 0 ->
     do_brush_head src (next_brush_pos dec) (rdr dec) = (Err e, r) ->
     fst (next_brush src dec) = Some (Err (IoError e)) /\
     count (snd (next_brush src dec)) = 0 /\
     forall k, call_out src (S k) dec = None) /\
  (forall src dec e r,
     next_brush_pos6 dec < sample_section_end dec ->
     process_brush_length src (next_brush_pos6 dec) (rdr6 dec) = (Err e, r) ->
     fst (next_brush6 src dec) = Some (Err (IoError e)) /\
     next_brush_pos6 (snd (next_brush6 src dec)) = sample_section_end dec /\
     forall k, call_out6 src (S k) dec = None).
Proof.
  split.
  - intros src dec e r Hc Hh.
    rewrite (next_brush_head_err src dec e r Hc Hh). cbn.
    split; [reflexivity | split; [reflexivity|]].
    intros k. unfold call_out. cbn [iter_next].
    rewrite (next_brush_head_err src dec e r Hc Hh). cbn [snd].
    set (d' := mkDecoder r (version dec) 0 (next_brush_pos dec)).
    assert (H0 : count d' = 0) by reflexivity.
    rewrite (iter_next_fixed src d' (next_brush_exhausted src d' H0)).
    rewrite (next_brush_exhausted src d' H0). reflexivity.
  - intros src dec e r Hc Hh.
    rewrite (next_brush6_head_err src dec e r Hc Hh). cbn.
    split; [reflexivity | split; [reflexivity|]].
    intros k. unfold call_out6. cbn [iter_next6].
    rewrite (next_brush6_head_err src dec e r Hc Hh). cbn [snd].
    set (d' := mkAbr6Decoder r (subversion dec) (sample_section_end dec)
                             (sample_section_end dec)).
    assert (H0 : sample_section_end d' <= next_brush_pos6 d') by (cbn; lia).
    rewrite (iter_next6_fixed src d' (next_brush6_exhausted src d' H0)).
    rewrite (next_brush6_exhausted src d' H0). reflexivity.
Qed.

Lemma nav_error_stops_iteration_witness :
  (fst (next_brush legacy_truncated_src (mkDecoder 0 1 1 0)) = Some (Err (IoError UnexpectedEof)) /\
   count (snd (next_brush legacy_truncated_src (mkDecoder 0 1 1 0))) = 0 /\
   forall k, call_out legacy_truncated_src (S k) (mkDecoder 0 1 1 0) = None) /\
  (fst (next_brush6 gen6_truncated_src (mkAbr6Decoder 12 1 20 12))
     = Some (Err (IoError UnexpectedEof)) /\
   next_brush_pos6 (snd (next_brush6 gen6_truncated_src (mkAbr6Decoder 12 1 20 12)))
     = sample_section_end (mkAbr6Decoder 12 1 20 12) /\
   forall k, call_out6 gen6_truncated_src (S k) (mkAbr6Decoder 12 1 20 12) = None).
Proof.
  split.
  - apply (proj1 nav_error_stops_iteration legacy_truncated_src (mkDecoder 0 1 1 0)
             UnexpectedEof 0); [cbn; lia | vm_compute; reflexivity].
  - apply (proj2 nav_error_stops_iteration gen6_truncated_src (mkAbr6Decoder 12 1 20 12)
             UnexpectedEof 12); [cbn; lia | vm_compute; reflexivity].
Defined.

(** C5: every brush either decoder returns has depth 8 and exactly
    width * height * (depth / 8) data bytes, in the raw and in the RLE
    branch; the RLE codec (modelled from the spec) returns exactly the
    target number of bytes or an error. *)
Theorem brush_data_length_exact :
  (forall src dec b,
     fst (next_brush src dec) = Some (Ok b) ->
     depth b = 8 /\
     Z.of_nat (length (data b)) = width b * height b * Z.shiftr (depth b) 3) /\
  (forall src dec b,
     fst (next_brush6 src dec) = Some (Ok b) ->
     s_depth b = 8 /\
     Z.of_nat (length (s_data b)) = s_width b * s_height b * Z.shiftr (s_depth b) 3) /\
  (forall src h size p d p',
     read_rle_data src h size p = (Ok d, p') -> Z.of_nat (length d) = size).
Proof.
  split; [|split].
  - intros src dec b H. apply next_brush_ok_body in H as (p & p' & H).
    exact (do_brush_body_ok _ _ _ _ _ H).
  - intros src dec b H. apply next_brush6_ok_body in H as (p & p' & H).
    exact (process_brush_body_ok _ _ _ _ _ H).
  - exact read_rle_data_length.
Qed.

Lemma brush_data_length_exact_witness :
  fst (next_brush legacy_sample_src (mkDecoder 0 2 1 0))
  = Some (Ok (mkImageBrush 2 2 8 (bytes_of [10; 20; 30; 40]))) /\
  depth (mkImageBrush 2 2 8 (bytes_of [10; 20; 30; 40])) = 8 /\
  Z.of_nat (length (data (mkImageBrush 2 2 8 (bytes_of [10; 20; 30; 40]))))
  = width (mkImageBrush 2 2 8 (bytes_of [10; 20; 30; 40]))
    * height (mkImageBrush 2 2 8 (bytes_of [10; 20; 30; 40]))
    * Z.shiftr (depth (mkImageBrush 2 2 8 (bytes_of [10; 20; 30; 40]))) 3.
Proof.
  assert (H : fst (next_brush legacy_sample_src (mkDecoder 0 2 1 0))
              = Some (Ok (mkImageBrush 2 2 8 (bytes_of [10; 20; 30; 40]))))
    by (vm_compute; reflexivity).
  split; [exact H|].
  exact (proj1 brush_data_length_exact legacy_sample_src (mkDecoder 0 2 1 0) _ H).
Defined.

(** C10: exhaustion is absorbing for both decoders: after a call returns
    [None], every later call returns [None]; no call raises the legacy
    count, and a generation-6 call at or past the section end leaves the
    decoder unchanged. *)
Theorem exhaustion_absorbing :
  (forall src dec k,
     call_out src k dec = None -> forall j, (k <= j)%nat -> call_out src j dec = None) /\
  (forall src dec,
     0 <= count dec -> count (snd (next_brush src dec)) <= count dec) /\
  (forall src dec k,
     call_out6 src k dec = None -> forall j, (k <= j)%nat -> call_out6 src j dec = None) /\
  (forall src dec,
     sample_section_end dec <= next_brush_pos6 dec -> snd (next_brush6 src dec) = dec).
Proof.
  split; [|split; [|split]].
  - exact call_out_absorbing.
  - intros src dec H. destruct (Z.eq_dec (count dec) 0) as [H0|H0].
    + rewrite (next_brush_exhausted src dec H0). cbn. lia.
    + destruct (do_brush_head src (next_brush_pos dec) (rdr dec)) as [[nbp|e|] r] eqn:Eh.
      * rewrite (next_brush_head_ok src dec nbp r H0 Eh). cbn. lia.
      * rewrite (next_brush_head_err src dec e r H0 Eh). cbn. lia.
      * exfalso. exact (do_brush_head_no_panic _ _ _ _ Eh).
  - exact call_out6_absorbing.
  - intros src dec H. rewrite (next_brush6_exhausted src dec H). reflexivity.
Qed.

Lemma exhaustion_absorbing_witness :
  call_out legacy_badtype_src 3 (mkDecoder 0 2 2 0) = None /\
  call_out6 gen6_unaligned_src 4 (mkAbr6Decoder 25 1 33 25) = None.
Proof.
  split.
  - apply (proj1 exhaustion_absorbing legacy_badtype_src (mkDecoder 0 2 2 0) 2%nat);
      [vm_compute; reflexivity | lia].
  - apply (proj1 (proj2 (proj2 exhaustion_absorbing)) gen6_unaligned_src
             (mkAbr6Decoder 25 1 33 25) 2%nat); [vm_compute; reflexivity | lia].
Defined.

Lemma next_brush6_offset_step src dec :
  src_len src < 2 ^ 63 ->
  sample_section_end (snd (next_brush6 src dec)) = sample_section_end dec /\
  next_brush_pos6 dec <= next_brush_pos6 (snd (next_brush6 src dec)) /\
  (next_brush_pos6 (snd (next_brush6 src dec)) = next_brush_pos6 dec \/
   next_brush_pos6 (snd (next_brush6 src dec)) = sample_section_end dec \/
   next_brush_pos6 (snd (next_brush6 src dec)) mod 4 = 0).
Proof.
  intros HL.
  destruct (Z_lt_ge_dec (next_brush_pos6 dec) (sample_section_end dec)) as [Hlt|Hge].
  - destruct (process_brush_length src (next_brush_pos6 dec) (rdr6 dec))
      as [[nbp|e|] r] eqn:Eh.
    + rewrite (next_brush6_head_ok src dec nbp r Hlt Eh). cbn.
      destruct (process_brush_length_ok src _ _ _ _ HL Eh). auto.
    + rewrite (next_brush6_head_err src dec e r Hlt Eh). cbn. lia.
    + exfalso. exact (process_brush_length_no_panic _ _ _ _ Eh).
  - assert (Hx : sample_section_end dec <= next_brush_pos6 dec) by lia.
    rewrite (next_brush6_exhausted src dec Hx). cbn. lia.
Qed.

(** C2 (amended): across successive calls of the generation-6 decoder the
    next-brush offset never decreases and the section end never changes;
    each call either leaves the offset unchanged (exhausted), forces it to
    the section end (failed length read), or moves it to a multiple of 4
    counted from the start of the stream (not from the section start). *)
Theorem gen6_offsets_monotone_aligned src dec k :
  src_len src < 2 ^ 63 ->
  sample_section_end (iter_next6 src k dec) = sample_section_end dec /\
  next_brush_pos6 (iter_next6 src k dec) <= next_brush_pos6 (iter_next6 src (S k) dec) /\
  (next_brush_pos6 (iter_next6 src (S k) dec) = next_brush_pos6 (iter_next6 src k dec) \/
   next_brush_pos6 (iter_next6 src (S k) dec) = sample_section_end dec \/
   next_brush_pos6 (iter_next6 src (S k) dec) mod 4 = 0).
Proof.
  intros HL.
  assert (Hend : forall j, sample_section_end (iter_next6 src j dec) = sample_section_end dec).
  { intros j. induction j as [|j IH]; [reflexivity|].
    replace (S j) with (j + 1)%nat by lia. rewrite iter_next6_add. cbn.
    rewrite (proj1 (next_brush6_offset_step src _ HL)). exact IH. }
  replace (S k) with (k + 1)%nat by lia. rewrite iter_next6_add. cbn [iter_next6].
  destruct (next_brush6_offset_step src (iter_next6 src k dec) HL) as (_ & H1 & H2).
  rewrite (Hend k) in H2. auto.
Qed.

Lemma gen6_offsets_monotone_aligned_witness :
  sample_section_end (iter_next6 gen6_unaligned_src 1 (mkAbr6Decoder 25 1 33 25)) = 33 /\
  next_brush_pos6 (iter_next6 gen6_unaligned_src 1 (mkAbr6Decoder 25 1 33 25))
  <= next_brush_pos6 (iter_next6 gen6_unaligned_src 2 (mkAbr6Decoder 25 1 33 25)) /\
  (next_brush_pos6 (iter_next6 gen6_unaligned_src 2 (mkAbr6Decoder 25 1 33 25))
   = next_brush_pos6 (iter_next6 gen6_unaligned_src 1 (mkAbr6Decoder 25 1 33 25)) \/
   next_brush_pos6 (iter_next6 gen6_unaligned_src 2 (mkAbr6Decoder 25 1 33 25)) = 33 \/
   next_brush_pos6 (iter_next6 gen6_unaligned_src 2 (mkAbr6Decoder 25 1 33 25)) mod 4 = 0).
Proof.
  apply (gen6_offsets_monotone_aligned gen6_unaligned_src (mkAbr6Decoder 25 1 33 25) 1%nat).
  vm_compute. reflexivity.
Defined.

(** C2 (counterexample): the sample section of [gen6_unaligned_src] starts
    at offset 25; the second call visits offset 32 (still before the
    section end 33), which is 7 bytes past the section start. *)
Lemma gen6_offset_not_section_aligned :
  exists dec,
    open6 gen6_unaligned_src 0 1 = Ok dec /\
    next_brush_pos6 (iter_next6 gen6_unaligned_src 1 dec) < sample_section_end dec /\
    (next_brush_pos6 (iter_next6 gen6_unaligned_src 1 dec) - next_brush_pos6 dec) mod 4 <> 0.
Proof.
  exists (mkAbr6Decoder 25 1 33 25).
  split; [vm_compute; reflexivity|].
  split; vm_compute; [reflexivity | discriminate].
Qed.

(** ** Reads at a known place of the source *)

Lemma bind_step {E T U} (m : RM E T) (k : T -> RM E U) p x p' :
  m p = (Ok x, p') -> bind m k p = k x p'.
Proof. intros H. unfold bind. rewrite H. reflexivity. Qed.

Lemma lift_step {E E' T} (f : E -> E') (m : RM E T) p x p' :
  m p = (Ok x, p') -> lift f m p = (Ok x, p').
Proof. intros H. unfold lift. rewrite H. reflexivity. Qed.

Lemma read_exact_at src pre bs tl p n :
  src = pre ++ bs ++ tl -> p = Z.of_nat (length pre) -> n = Z.of_nat (length bs) ->
  read_exact src n p = (Ok bs, p + n).
Proof.
  intros -> -> ->. unfold read_exact, src_len. rewrite !length_app.
  replace ((0 <=? _) && (_ <=? _)) with true
    by (symmetry; apply andb_true_intro; split; apply Z.leb_le; lia).
  rewrite !Nat2Z.id, skipn_app, skipn_all, Nat.sub_diag. cbn [skipn app].
  rewrite firstn_app, firstn_all, Nat.sub_diag. cbn [firstn]. rewrite app_nil_r.
  reflexivity.
Qed.

Lemma encoded_blocks_length blocks :
  forallb block_skipped blocks = true ->
  (length blocks <= length (concat (map encode_block blocks)))%nat.
Proof.
  induction blocks as [|b bs IH]; cbn; [lia|].
  intros H. apply andb_prop in H as [Hb Hbs].
  unfold block_skipped in Hb. apply andb_prop in Hb as [Hb _].
  repeat (apply andb_prop in Hb as [Hb ?]).
  apply Nat.eqb_eq in Hb.
  assert (4 <= length (encode_block b))%nat
    by (unfold encode_block; rewrite !length_app; lia).
  rewrite length_app. specialize (IH Hbs). lia.
Qed.

Lemma find_sample_8bim src rest blocks :
  forall pre fuel,
  src = pre ++ concat (map encode_block blocks) ++ tag_8bim ++ rest ->
  forallb block_skipped blocks = true ->
  (length blocks < fuel)%nat ->
  src_len src < 2 ^ 64 ->
  fst (find_sample src fuel (Z.of_nat (length pre))) = Err Found8bim.
Proof.
  induction blocks as [|b bs IH]; intros pre fuel Hsrc Hok Hfuel HL;
    (destruct fuel as [|fuel]; [cbn in Hfuel; lia|]).
  - cbn [find_sample].
    rewrite (bind_step _ _ _ tag_8bim (Z.of_nat (length pre) + 4)).
    + reflexivity.
    + apply lift_step. apply (read_exact_at src pre tag_8bim rest); auto.
  - cbn [forallb] in Hok. apply andb_prop in Hok as [Hb Hbs].
    unfold block_skipped in Hb.
    apply andb_prop in Hb as [Hb Hpl]. apply andb_prop in Hb as [Hb Hkey].
    apply andb_prop in Hb as [Hb Hsig]. apply andb_prop in Hb as [Hb Hl3].
    apply andb_prop in Hb as [Hl1 Hl2].
    apply Nat.eqb_eq in Hl1, Hl2, Hl3. apply negb_true_iff in Hsig, Hkey.
    apply Z.eqb_eq in Hpl.
    destruct b as [sig key len payload]; cbn [blk_sig blk_key blk_len blk_payload] in *.
    set (tail := concat (map encode_block bs) ++ tag_8bim ++ rest) in *.
    assert (Hsrc' : src = pre ++ sig ++ key ++ len ++ payload ++ tail).
    { rewrite Hsrc. cbn [map concat]. unfold encode_block. cbn.
      rewrite <- !app_assoc. reflexivity. }
    set (p := Z.of_nat (length pre)).
    assert (HLs : src_len src = p + 12 + Z.of_nat (length payload)
                                + Z.of_nat (length tail)).
    { unfold src_len, p. rewrite Hsrc', !length_app. lia. }
    cbn [find_sample].
    rewrite (bind_step _ _ _ sig (p + 4))
      by (apply lift_step; apply (read_exact_at src pre sig (key ++ len ++ payload ++ tail));
          auto; lia).
    rewrite Hsig.
    rewrite (bind_step _ _ _ key (p + 4 + 4)).
    2:{ apply lift_step. apply (read_exact_at src (pre ++ sig) key (len ++ payload ++ tail)).
        - rewrite Hsrc'. rewrite <- !app_assoc. reflexivity.
        - unfold p. rewrite length_app. lia.
        - lia. }
    rewrite Hkey.
    rewrite (bind_step _ _ _ (be_value len) (p + 4 + 4 + 4)).
    2:{ apply lift_step. unfold read_u32.
        rewrite (bind_step _ _ _ len (p + 4 + 4 + 4)); [reflexivity|].
        apply (read_exact_at src (pre ++ sig ++ key) len (payload ++ tail)).
        - rewrite Hsrc'. rewrite <- !app_assoc. reflexivity.
        - unfold p. rewrite !length_app. lia.
        - lia. }
    rewrite (bind_step _ _ _ (p + 4 + 4 + 4 + be_value len) (p + 4 + 4 + 4 + be_value len)).
    2:{ apply lift_step. unfold seek_current.
        replace ((0 <=? _) && (_ <? 2 ^ 64)) with true
          by (symmetry; apply andb_true_intro; split;
              [apply Z.leb_le | apply Z.ltb_lt]; lia).
        reflexivity. }
    replace (p + 4 + 4 + 4 + be_value len)
      with (Z.of_nat (length (pre ++ encode_block (mkResourceBlock sig key len payload))))
      by (unfold encode_block, p; cbn [blk_sig blk_key blk_len blk_payload];
          rewrite !length_app; lia).
    apply IH; auto.
    + rewrite Hsrc'. unfold encode_block. cbn [blk_sig blk_key blk_len blk_payload].
      rewrite <- !app_assoc. reflexivity.
    + cbn [length] in Hfuel. lia.
Qed.

(** C6: when, from the reader's position, the stream holds well-formed
    blocks that are neither "8bim"-signed nor "samp"-keyed and then a block
    whose 4-byte signature is "8bim", generation-6 [open] fails with
    [Found8bim] and returns no decoder; [Found8bim] is not an I/O error
    (body-parsing errors are of the separate type [BrushError]). *)
Theorem gen6_open_found_8bim pre blocks rest sv :
  forallb block_skipped blocks = true ->
  src_len (pre ++ concat (map encode_block blocks) ++ tag_8bim ++ rest) < 2 ^ 64 ->
  open6 (pre ++ concat (map encode_block blocks) ++ tag_8bim ++ rest)
        (Z.of_nat (length pre)) sv = Err Found8bim /\
  forall e, Found8bim <> OpenIoError e.
Proof.
  intros Hok HL. split; [|discriminate].
  set (src := pre ++ concat (map encode_block blocks) ++ tag_8bim ++ rest) in *.
  assert (Hfuel : (length blocks < S (length src))%nat).
  { pose proof (encoded_blocks_length blocks Hok).
    unfold src. rewrite !length_app. lia. }
  pose proof (find_sample_8bim src rest blocks pre (S (length src)) eq_refl Hok Hfuel HL) as H.
  unfold open6, open6_steps, bind at 1.
  destruct (find_sample src (S (length src)) (Z.of_nat (length pre))) as [[u|e|] r].
  - discriminate.
  - cbn in H. inversion H. reflexivity.
  - discriminate.
Qed.

Lemma gen6_open_found_8bim_witness :
  open6 ([] ++ concat (map encode_block
                          [mkResourceBlock (bytes_of [97; 98; 99; 100])
                                           (bytes_of [101; 102; 103; 104])
                                           (bytes_of [0; 0; 0; 1]) (bytes_of [7])])
            ++ tag_8bim ++ bytes_of [0; 0; 0; 0])
        (Z.of_nat (length (@nil Byte.byte))) 1 = Err Found8bim /\
  forall e, Found8bim <> OpenIoError e.
Proof.
  apply gen6_open_found_8bim; vm_compute; reflexivity.
Defined.

(** ** Reading a record at any offset *)

Lemma bind_assoc_at {E T U V} (m : RM E T) (f : T -> RM E U) (k : U -> RM E V) p :
  bind (bind m f) k p = bind m (fun x => bind (f x) k) p.
Proof. unfold bind. destruct (m p) as [[x|e|] p1]; reflexivity. Qed.

Lemma vec_zeroed_ok {E} size p : size <= isize_max -> @vec_zeroed E size p = (Ok tt, p).
Proof.
  intros H. unfold vec_zeroed.
  replace (isize_max <? size) with false by (symmetry; apply Z.ltb_ge; lia).
  reflexivity.
Qed.

Lemma vec_zeroed_panic {E} size p : isize_max < size -> @vec_zeroed E size p = (Panic, p).
Proof.
  intros H. unfold vec_zeroed.
  replace (isize_max <? size) with true by (symmetry; apply Z.ltb_lt; lia).
  reflexivity.
Qed.

Lemma read_exact_in src P T k n bs :
  src = P ++ T -> 0 <= k -> 0 < n ->
  firstn (Z.to_nat n) (skipn (Z.to_nat k) T) = bs -> length bs = Z.to_nat n ->
  read_exact src n (Z.of_nat (length P) + k) = (Ok bs, Z.of_nat (length P) + (k + n)).
Proof.
  intros -> Hk Hn Hbs Hl. unfold read_exact, src_len.
  assert (Hle : (Z.to_nat n <= length (skipn (Z.to_nat k) T))%nat).
  { rewrite <- Hbs, length_firstn in Hl. lia. }
  rewrite length_skipn in Hle. rewrite length_app.
  replace ((0 <=? _) && (_ <=? _)) with true
    by (symmetry; apply andb_true_intro; split; apply Z.leb_le; lia).
  rewrite Z2Nat.inj_add by lia. rewrite Nat2Z.id.
  rewrite skipn_app, skipn_all2 by lia.
  replace (length P + Z.to_nat k - length P)%nat with (Z.to_nat k) by lia.
  cbn [app]. rewrite Hbs. f_equal. lia.
Qed.

Lemma read_exact_rest src P T rest k n :
  src = P ++ T ++ rest -> Z.of_nat (length T) = k -> 0 <= n ->
  read_exact src n (Z.of_nat (length P) + k)
  = if n <=? Z.of_nat (length rest)
    then (Ok (firstn (Z.to_nat n) rest), Z.of_nat (length P) + k + n)
    else (Err UnexpectedEof, Z.of_nat (length P) + k).
Proof.
  intros -> <- Hn. unfold read_exact, src_len. rewrite !length_app.
  replace (Z.to_nat (Z.of_nat (length P) + Z.of_nat (length T)))
    with (length (P ++ T)) by (rewrite length_app; lia).
  rewrite app_assoc, skipn_app, skipn_all, Nat.sub_diag. cbn [skipn app].
  destruct (n <=? Z.of_nat (length rest)) eqn:E.
  - apply Z.leb_le in E.
    replace ((0 <=? _) && (_ <=? _)) with true
      by (symmetry; apply andb_true_intro; split; apply Z.leb_le; lia).
    reflexivity.
  - apply Z.leb_gt in E.
    replace ((0 <=? _) && (_ <=? _)) with false; [reflexivity|].
    symmetry. apply andb_false_intro2. apply Z.leb_gt. lia.
Qed.

Lemma seek_current_to n p q :
  q = p + n -> 0 <= q < 2 ^ 64 -> seek_current n p = (Ok q, q).
Proof.
  intros -> Hq. unfold seek_current.
  replace ((0 <=? _) && (_ <? _)) with true
    by (symmetry; apply andb_true_intro; split; [apply Z.leb_le | apply Z.ltb_lt]; lia).
  reflexivity.
Qed.

Ltac solve_read_in :=
  lazymatch goal with
  | |- read_exact _ _ _ = _ =>
      eapply read_exact_in; [eassumption | lia | lia | cbv; reflexivity | reflexivity]
  | |- read_u8 _ _ = _ => unfold read_u8; erewrite bind_step by solve_read_in; reflexivity
  | |- read_u16 _ _ = _ => unfold read_u16; erewrite bind_step by solve_read_in; reflexivity
  | |- read_u32 _ _ = _ => unfold read_u32; erewrite bind_step by solve_read_in; reflexivity
  end.

(** One step of a [let?] chain whose reads stay in spelled-out bytes
    after the prefix named by a hypothesis [src = P ++ T]; tests that
    mention a variable are left alone. *)
Ltac step_in :=
  match goal with
  | |- context [bind (bind ?m ?f) ?k ?p] => rewrite (bind_assoc_at m f k p)
  | |- context [bind (lift ?f ?m) ?k ?p] =>
      erewrite (bind_step (lift f m) k p) by (apply lift_step; solve_read_in); cbv beta zeta
  | |- context [bind (ret ?x) ?k ?p] =>
      rewrite (bind_step (ret x) k p x p) by reflexivity; cbv beta zeta
  | |- context [if ?c then _ else _] =>
      assert_fails (idtac; match c with context [?v] => is_var v end);
      let v := eval vm_compute in c in
      lazymatch v with
      | true => change c with true; cbv beta iota zeta
      | false => change c with false; cbv beta iota zeta
      end
  end.

Lemma be_value_range bs : 0 <= be_value bs < 256 ^ Z.of_nat (length bs).
Proof.
  unfold be_value. assert (H0 : 0 <= 0) by lia.
  pose proof (be_value_fold_range bs 0 H0). lia.
Qed.

Ltac finish_layout P1 T :=
  let Hc := fresh "Hc" in
  match goal with |- context [if negb (be_value [?c] =? 0) then _ else _] =>
    destruct (be_value [c] =? 0) eqn:Hc; cbn [negb] end;
  change (Z.shiftr (be_value [x00; x08]) 3) with 1;
  change (be_value [x00; x08]) with 8;
  rewrite mul_usize_exact by lia;
  [ rewrite bind_assoc_at;
    erewrite (bind_step (vec_zeroed _)) by (apply vec_zeroed_ok; unfold isize_max; nia);
    cbv beta;
    unfold bind at 1, lift at 1;
    erewrite (read_exact_rest _ P1 T); [| match goal with H : ?s = _ |- ?s = _ => rewrite H; reflexivity end | reflexivity | nia];
    match goal with |- context [if ?b then _ else _] =>
      lazymatch b with (_ <=? Z.of_nat (length _)) => destruct b; reflexivity end end
  | match goal with |- fst (bind ?m ?k ?p1) = fst (bind ?m' ?k' ?p2) =>
      replace p2 with p1 by (rewrite ?length_app, ?Nat2Z.inj_add; cbn [length]; lia) end;
    reflexivity ].

Lemma legacy_body_layout (v : Z) (pre name lb rest : list Byte.byte)
    (m0 m1 m2 m3 s0 s1 n0 n1 n2 n3 aa t0 t1 l0 l1 b0 b1 r0 r1 c : Byte.byte) :
  length lb = 16%nat ->
  Z.of_nat (length pre) < 2 ^ 63 ->
  (v = 2 -> Z.of_nat (length name) = 2 * be_value [n0; n1; n2; n3]) ->
  let np := if v =? 2 then [n0; n1; n2; n3] ++ name else [] in
  let src := pre ++ [x00; x02; m0; m1; m2; m3; s0; s1] ++ np ++
             [aa; t0; t1; l0; l1; b0; b1; r0; r1] ++ lb ++ [x00; x08; c] ++ rest in
  let w := sub_u16 (be_value [r0; r1]) (be_value [l0; l1]) in
  let h := sub_u16 (be_value [b0; b1]) (be_value [t0; t1]) in
  fst (do_brush_body src v (Z.of_nat (length pre)))
  = if be_value [c] =? 0
    then (if w * h <=? Z.of_nat (length rest)
          then Ok (mkImageBrush w h 8 (firstn (Z.to_nat (w * h)) rest))
          else Err (IoError UnexpectedEof))
    else fst ((let? d := read_rle_data src h (w * h) in ret (mkImageBrush w h 8 d))
                (Z.of_nat (length (pre ++ [x00; x02; m0; m1; m2; m3; s0; s1] ++ np)) + 28)).
Proof.
  intros Hlb Hpre Hname. cbv zeta.
  assert (Hw : 0 <= sub_u16 (be_value [r0; r1]) (be_value [l0; l1]) < 2 ^ 16)
    by apply sub_u16_range.
  assert (Hh : 0 <= sub_u16 (be_value [b0; b1]) (be_value [t0; t1]) < 2 ^ 16)
    by apply sub_u16_range.
  do 16 (destruct lb as [|? lb]; [discriminate|]).
  destruct lb; [|discriminate].
  rewrite <- (Z.add_0_r (Z.of_nat (length pre))).
  destruct (Z.eq_dec v 2) as [->|Hv].
  - specialize (Hname eq_refl). rewrite Z.eqb_refl. cbv beta iota.
    assert (HN : 0 <= be_value [n0; n1; n2; n3] < 2 ^ 32)
      by exact (be_value_range [n0; n1; n2; n3]).
    match goal with |- fst (do_brush_body ?s _ _) = _ => remember s as src eqn:Hsrc end.
    set (P1 := pre ++ [x00; x02; m0; m1; m2; m3; s0; s1] ++ [n0; n1; n2; n3] ++ name).
    assert (Hsrc1 : src = P1 ++ [aa; t0; t1; l0; l1; b0; b1; r0; r1] ++
                          [b; b2; b3; b4; b5; b6; b7; b8; b9; b10; b11; b12; b13; b14; b15; b16]
                          ++ [x00; x08; c] ++ rest).
    { rewrite Hsrc. unfold P1. rewrite <- !app_assoc. reflexivity. }
    unfold do_brush_body.
    repeat step_in.
    erewrite (bind_step (lift IoError (seek_current _)) _ _
                (Z.of_nat (length P1) + 0) (Z.of_nat (length P1) + 0)).
    2:{ apply lift_step, seek_current_to;
        unfold P1; rewrite !length_app, !Nat2Z.inj_add; cbn [length]; lia. }
    cbv beta.
    repeat step_in.
    finish_layout P1 [aa; t0; t1; l0; l1; b0; b1; r0; r1; b; b2; b3; b4; b5; b6; b7;
                      b8; b9; b10; b11; b12; b13; b14; b15; b16; x00; x08; c].
  - rewrite (proj2 (Z.eqb_neq v 2) Hv). cbv beta iota. cbn [app].
    match goal with |- fst (do_brush_body ?s _ _) = _ => remember s as src eqn:Hsrc end.
    unfold do_brush_body. rewrite (proj2 (Z.eqb_neq v 2) Hv).
    repeat step_in.
    finish_layout pre [x00; x02; m0; m1; m2; m3; s0; s1; aa; t0; t1; l0; l1; b0; b1; r0; r1;
                       b; b2; b3; b4; b5; b6; b7;
                      b8; b9; b10; b11; b12; b13; b14; b15; b16; x00; x08; c].
Qed.

Lemma gen6_body_layout (sv : Z) (pre skip rest : list Byte.byte)
    (t0 t1 t2 t3 l0 l1 l2 l3 b0 b1 b2 b3 r0 r1 r2 r3 c : Byte.byte) :
  length skip = (if (sv =? 1)%Z then 47%nat else 301%nat) ->
  Z.of_nat (length pre) < 2 ^ 63 ->
  let src := pre ++ skip ++ [t0; t1; t2; t3; l0; l1; l2; l3; b0; b1; b2; b3; r0; r1; r2; r3] ++
             [x00; x08; c] ++ rest in
  let w := sub_u32 (be_value [r0; r1; r2; r3]) (be_value [l0; l1; l2; l3]) in
  let h := sub_u32 (be_value [b0; b1; b2; b3]) (be_value [t0; t1; t2; t3]) in
  fst (process_brush_body src sv (Z.of_nat (length pre)))
  = if be_value [c] =? 0
    then (if isize_max <? w * h then Panic
          else if w * h <=? Z.of_nat (length rest)
          then Ok (mkSampleBrush w h 8 (firstn (Z.to_nat (w * h)) rest))
          else Err (IoError UnexpectedEof))
    else fst ((let? d := read_rle_data src h (w * h) in ret (mkSampleBrush w h 8 d))
                (Z.of_nat (length (pre ++ skip)) + 19)).
Proof.
  intros Hskip Hpre. cbv zeta.
  assert (Hw : 0 <= sub_u32 (be_value [r0; r1; r2; r3]) (be_value [l0; l1; l2; l3]) < 2 ^ 32)
    by apply sub_u32_range.
  assert (Hh : 0 <= sub_u32 (be_value [b0; b1; b2; b3]) (be_value [t0; t1; t2; t3]) < 2 ^ 32)
    by apply sub_u32_range.
  assert (Hs : Z.of_nat (length skip) = if sv =? 1 then 47 else 301)
    by (rewrite Hskip; destruct (sv =? 1); reflexivity).
  assert (Hs' : Z.of_nat (length skip) <= 301) by (destruct (sv =? 1); lia).
  match goal with |- fst (process_brush_body ?s _ _) = _ => remember s as src eqn:Hsrc end.
  set (P1 := pre ++ skip).
  assert (Hsrc1 : src = P1 ++ [t0; t1; t2; t3; l0; l1; l2; l3; b0; b1; b2; b3; r0; r1; r2; r3] ++
                        [x00; x08; c] ++ rest).
  { rewrite Hsrc. unfold P1. rewrite <- !app_assoc. reflexivity. }
  unfold process_brush_body.
  erewrite (bind_step (lift IoError (seek_current _)) _ _
              (Z.of_nat (length P1) + 0) (Z.of_nat (length P1) + 0)).
  2:{ apply lift_step, seek_current_to; try rewrite <- Hs;
      unfold P1; rewrite !length_app, !Nat2Z.inj_add; lia. }
  cbv beta.
  repeat step_in.
  match goal with |- context [if negb (be_value [?c] =? 0) then _ else _] =>
    destruct (be_value [c] =? 0) eqn:Hc; cbn [negb] end;
  change (Z.shiftr (be_value [x00; x08]) 3) with 1;
  change (be_value [x00; x08]) with 8;
  rewrite mul_usize_exact by lia.
  - rewrite bind_assoc_at.
    match goal with |- context [if isize_max <? ?s then _ else _] =>
      destruct (Z.ltb_spec isize_max s) as [Hbig|Hsmall] end.
    + unfold bind at 1. rewrite (vec_zeroed_panic _ _ Hbig). reflexivity.
    + erewrite (bind_step (vec_zeroed _)) by (apply vec_zeroed_ok; exact Hsmall).
      cbv beta. unfold bind at 1, lift at 1.
      erewrite (read_exact_rest _ P1 [t0; t1; t2; t3; l0; l1; l2; l3; b0; b1; b2; b3;
                                      r0; r1; r2; r3; x00; x08; c]);
        [| rewrite Hsrc1; reflexivity | reflexivity | nia].
      match goal with |- context [if ?b then _ else _] =>
        lazymatch b with (_ <=? Z.of_nat (length _)) => destruct b; reflexivity end end.
  - match goal with |- fst (bind ?m ?k ?p1) = fst (bind ?m' ?k' ?p2) =>
      replace p2 with p1 by (rewrite ?length_app, ?Nat2Z.inj_add; cbn [length]; lia) end.
    reflexivity.
Qed.

Lemma do_brush_head_at src pre h0 h1 tl r :
  src = pre ++ [h0; h1] ++ tl -> Z.of_nat (length pre) < 2 ^ 63 ->
  do_brush_head src (Z.of_nat (length pre)) r
  = (Ok (Z.of_nat (length pre) + 2 + be_value [h0; h1]), Z.of_nat (length pre) + 2).
Proof.
  intros Hs Hp. unfold do_brush_head.
  rewrite (bind_step _ _ _ (Z.of_nat (length pre)) (Z.of_nat (length pre))) by reflexivity.
  unfold read_u16.
  rewrite (bind_step _ _ _ (be_value [h0; h1]) (Z.of_nat (length pre) + 2)).
  - assert (H : 0 <= be_value [h0; h1] < 2 ^ 16) by exact (be_value_range [h0; h1]).
    unfold ret, add_u64. rewrite (Z.mod_small (_ + 2)) by lia.
    rewrite Z.mod_small by lia. reflexivity.
  - rewrite (bind_step _ _ _ [h0; h1] (Z.of_nat (length pre) + 2)); [reflexivity|].
    apply (read_exact_at src pre [h0; h1] tl); auto.
Qed.

Lemma next_brush_framing src pre h0 h1 tl dec :
  src = pre ++ [h0; h1] ++ tl ->
  next_brush_pos dec = Z.of_nat (length pre) ->
  count dec <> 0 ->
  Z.of_nat (length pre) < 2 ^ 63 ->
  next_brush src dec
  = (Some (fst (do_brush_body src (version dec) (next_brush_pos dec + 2))),
     mkDecoder (snd (do_brush_body src (version dec) (next_brush_pos dec + 2)))
               (version dec) (count dec - 1) (next_brush_pos dec + 2 + be_value [h0; h1])).
Proof.
  intros Hs Hp Hc HL.
  pose proof (do_brush_head_at src pre h0 h1 tl (rdr dec) Hs HL) as Hh.
  rewrite <- Hp in Hh.
  rewrite (next_brush_head_ok src dec _ _ Hc Hh). reflexivity.
Qed.

Lemma sub_u16_wraps a b : 0 <= a < b -> b < 2 ^ 16 -> sub_u16 a b = a - b + 2 ^ 16.
Proof.
  intros H1 H2. unfold sub_u16.
  rewrite <- (Z.mod_add (a - b) 1 (2 ^ 16)) by lia.
  apply Z.mod_small. lia.
Qed.

Lemma sub_u32_wraps a b : 0 <= a < b -> b < 2 ^ 32 -> sub_u32 a b = a - b + 2 ^ 32.
Proof.
  intros H1 H2. unfold sub_u32.
  rewrite <- (Z.mod_add (a - b) 1 (2 ^ 32)) by lia.
  apply Z.mod_small. lia.
Qed.

(** C7: a legacy decoder opened with version 2 and count 1 at the start of
    one record (any record length field; type 2; any misc and spacing; a
    name length field N with a name of N UCS-2 units (2N bytes) of any
    content; any anti-aliasing byte; 16-bit bounds top 0, left 0, bottom 2,
    right 2; any four 32-bit bounds; depth 8; compression flag 0; four data
    bytes; any bytes after them) returns, on its first call, a 2x2 brush of
    depth 8 whose data are exactly those four bytes. *)
Theorem legacy_scenario_2x2 (l0 l1 m0 m1 m2 m3 s0 s1 n0 n1 n2 n3 aa d0 d1 d2 d3 : Byte.byte)
    (name lb rest : list Byte.byte) :
  Z.of_nat (length name) = 2 * be_value [n0; n1; n2; n3] ->
  length lb = 16%nat ->
  exists dec,
    open 0 2 1 = Ok dec /\
    fst (next_brush
           ([l0; l1; x00; x02; m0; m1; m2; m3; s0; s1; n0; n1; n2; n3] ++ name ++
            [aa; x00; x00; x00; x00; x00; x02; x00; x02] ++ lb ++
            [x00; x08; x00; d0; d1; d2; d3] ++ rest) dec)
    = Some (Ok (mkImageBrush 2 2 8 [d0; d1; d2; d3])).
Proof.
  intros Hname Hlb. exists (mkDecoder 0 2 1 0). split; [reflexivity|].
  match goal with |- fst (next_brush ?s _) = _ =>
    rewrite (next_brush_framing s [] l0 l1 _ (mkDecoder 0 2 1 0) eq_refl eq_refl)
      by (cbn; lia) end.
  cbn [fst version next_brush_pos]. f_equal.
  pose proof (legacy_body_layout 2 [l0; l1] name lb ([d0; d1; d2; d3] ++ rest)
                m0 m1 m2 m3 s0 s1 n0 n1 n2 n3 aa x00 x00 x00 x00 x00 x02 x00 x02 x00
                Hlb ltac:(cbn; lia) (fun _ => Hname)) as H.
  cbv zeta in H. etransitivity; [exact H|].
  replace (Z.of_nat (length ([d0; d1; d2; d3] ++ rest))) with (4 + Z.of_nat (length rest))
    by (rewrite length_app, Nat2Z.inj_add; reflexivity).
  replace (sub_u16 (be_value [x00; x02]) (be_value [x00; x00])) with 2 by reflexivity.
  replace (2 * 2 <=? 4 + Z.of_nat (length rest)) with true
    by (symmetry; apply Z.leb_le; lia).
  reflexivity.
Qed.

Lemma legacy_scenario_2x2_witness :
  exists dec,
    open 0 2 1 = Ok dec /\
    fst (next_brush
           ([x00; x3a; x00; x02; x01; x02; x03; x04; x00; x09; x00; x00; x00; x02] ++
            [x00; x41; x00; x42] ++
            [x00; x00; x00; x00; x00; x00; x02; x00; x02] ++ repeat x00 16 ++
            [x00; x08; x00; x0a; x14; x1e; x28] ++ []) dec)
    = Some (Ok (mkImageBrush 2 2 8 [x0a; x14; x1e; x28])).
Proof.
  apply legacy_scenario_2x2; reflexivity.
Defined.

(** ** Stepping through reads of a source whose first bytes are spelled out *)

Lemma read_exact_conc src p n bs :
  0 <= p -> 0 < n -> firstn (Z.to_nat n) (skipn (Z.to_nat p) src) = bs ->
  length bs = Z.to_nat n -> read_exact src n p = (Ok bs, p + n).
Proof.
  intros Hp Hn Hbs Hl. unfold read_exact, src_len.
  assert (Hle : (Z.to_nat n <= length (skipn (Z.to_nat p) src))%nat).
  { rewrite <- Hbs, length_firstn in Hl. lia. }
  rewrite length_skipn in Hle.
  replace ((0 <=? p) && (p + n <=? Z.of_nat (length src))) with true
    by (symmetry; apply andb_true_intro; split; apply Z.leb_le; lia).
  rewrite Hbs. reflexivity.
Qed.

(** C9: neither decoder checks the order of the bounds.  For a record of
    either decoder at any offset (legacy: any version, with the name string
    of any length for version 2; generation 6: any sub-variant; type 2 and
    depth 8; any other fields; any compression flag), brush-body parsing
    goes from the bounds straight to the data with width = right - left and
    height = bottom - top wrapped (u16 for legacy, u32 for generation 6):
    the outcome is fixed by the data read of width * height bytes (raw, or
    through the RLE codec), and no test on the bounds can make it fail.
    Raw generation-6 data of more than [isize::MAX] bytes make
    [vec![0; size]] panic.  When right < left the wrapped width is
    right - left + 2^16 (resp. 2^32); with left = 1, right = 0 and equal
    top and bottom both decoders return brushes of width 65535 and
    4294967295, and with top = left = 1, bottom = right = 0 the
    generation-6 body panics. *)
Theorem bounds_unchecked_subtraction :
  (forall (v : Z) (pre name lb rest : list Byte.byte)
          (m0 m1 m2 m3 s0 s1 n0 n1 n2 n3 aa t0 t1 l0 l1 b0 b1 r0 r1 c : Byte.byte),
     length lb = 16%nat ->
     Z.of_nat (length pre) < 2 ^ 63 ->
     (v = 2 -> Z.of_nat (length name) = 2 * be_value [n0; n1; n2; n3]) ->
     let np := if v =? 2 then [n0; n1; n2; n3] ++ name else [] in
     let src := pre ++ [x00; x02; m0; m1; m2; m3; s0; s1] ++ np ++
                [aa; t0; t1; l0; l1; b0; b1; r0; r1] ++ lb ++ [x00; x08; c] ++ rest in
     let w := sub_u16 (be_value [r0; r1]) (be_value [l0; l1]) in
     let h := sub_u16 (be_value [b0; b1]) (be_value [t0; t1]) in
     fst (do_brush_body src v (Z.of_nat (length pre)))
     = if be_value [c] =? 0
       then (if w * h <=? Z.of_nat (length rest)
             then Ok (mkImageBrush w h 8 (firstn (Z.to_nat (w * h)) rest))
             else Err (IoError UnexpectedEof))
       else fst ((let? d := read_rle_data src h (w * h) in ret (mkImageBrush w h 8 d))
                   (Z.of_nat (length (pre ++ [x00; x02; m0; m1; m2; m3; s0; s1] ++ np)) + 28))) /\
  (forall (sv : Z) (pre skip rest : list Byte.byte)
          (t0 t1 t2 t3 l0 l1 l2 l3 b0 b1 b2 b3 r0 r1 r2 r3 c : Byte.byte),
     length skip = (if (sv =? 1)%Z then 47%nat else 301%nat) ->
     Z.of_nat (length pre) < 2 ^ 63 ->
     let src := pre ++ skip ++ [t0; t1; t2; t3; l0; l1; l2; l3; b0; b1; b2; b3; r0; r1; r2; r3] ++
                [x00; x08; c] ++ rest in
     let w := sub_u32 (be_value [r0; r1; r2; r3]) (be_value [l0; l1; l2; l3]) in
     let h := sub_u32 (be_value [b0; b1; b2; b3]) (be_value [t0; t1; t2; t3]) in
     fst (process_brush_body src sv (Z.of_nat (length pre)))
     = if be_value [c] =? 0
       then (if isize_max <? w * h then Panic
             else if w * h <=? Z.of_nat (length rest)
             then Ok (mkSampleBrush w h 8 (firstn (Z.to_nat (w * h)) rest))
             else Err (IoError UnexpectedEof))
       else fst ((let? d := read_rle_data src h (w * h) in ret (mkSampleBrush w h 8 d))
                   (Z.of_nat (length (pre ++ skip)) + 19))) /\
  (forall right left, 0 <= right < left -> left < 2 ^ 16 ->
     sub_u16 right left = right - left + 2 ^ 16) /\
  (forall right left, 0 <= right < left -> left < 2 ^ 32 ->
     sub_u32 right left = right - left + 2 ^ 32) /\
  fst (do_brush_body (bytes_of ([0; 2; 0; 0; 0; 0; 0; 0; 0; 0; 0; 0; 1; 0; 0; 0; 0]
                                ++ repeat 0 16 ++ [0; 8; 0])) 1 0)
  = Ok (mkImageBrush 65535 0 8 []) /\
  fst (process_brush_body (repeat x00 47 ++
                           bytes_of [0; 0; 0; 0; 0; 0; 0; 1; 0; 0; 0; 0; 0; 0; 0; 0;
                                     0; 8; 0]) 1 0)
  = Ok (mkSampleBrush 4294967295 0 8 []) /\
  fst (process_brush_body (repeat x00 47 ++
                           bytes_of [0; 0; 0; 1; 0; 0; 0; 1; 0; 0; 0; 0; 0; 0; 0; 0;
                                     0; 8; 0]) 1 0)
  = Panic.
Proof.
  split; [exact legacy_body_layout|].
  split; [exact gen6_body_layout|].
  split; [exact sub_u16_wraps|].
  split; [exact sub_u32_wraps|].
  split; [|split]; vm_compute; reflexivity.
Qed.

Lemma bounds_unchecked_subtraction_witness :
  fst (do_brush_body ([] ++ [x00; x02; x00; x00; x00; x00; x00; x00] ++
                      [x00; x00; x00; x02] ++ [x00; x41; x00; x42] ++
                      [x00; x00; x00; x00; x01; x00; x00; x00; x00] ++ repeat x00 16 ++
                      [x00; x08; x00] ++ [x0a]) 2 0)
  = Ok (mkImageBrush 65535 0 8 []) /\
  fst (process_brush_body ([] ++ repeat x00 301 ++
                           [x00; x00; x00; x01; x00; x00; x00; x01;
                            x00; x00; x00; x00; x00; x00; x00; x00] ++
                           [x00; x08; x00] ++ []) 2 0)
  = Panic.
Proof.
  split.
  - refine (eq_trans (proj1 bounds_unchecked_subtraction 2 [] [x00; x41; x00; x42]
              (repeat x00 16) [x0a] x00 x00 x00 x00 x00 x00 x00 x00 x00 x02 x00
              x00 x00 x00 x01 x00 x00 x00 x00 x00 eq_refl eq_refl (fun _ => eq_refl)) _).
    vm_compute. reflexivity.
  - refine (eq_trans (proj1 (proj2 bounds_unchecked_subtraction) 2 [] (repeat x00 301) []
              x00 x00 x00 x01 x00 x00 x00 x01 x00 x00 x00 x00 x00 x00 x00 x00 x00
              eq_refl eq_refl) _).
    vm_compute. reflexivity.
Defined.

(** ** Further properties of the decoders *)

Lemma read_exact_tail src rest n p :
  0 <= p -> 0 <= n -> skipn (Z.to_nat p) src = rest ->
  Z.of_nat (length src) = p + Z.of_nat (length rest) ->
  read_exact src n p
  = if n <=? Z.of_nat (length rest)
    then (Ok (firstn (Z.to_nat n) rest), p + n) else (Err UnexpectedEof, p).
Proof.
  intros Hp Hn Hs Hl. unfold read_exact, src_len. rewrite Hs, Hl.
  destruct (n <=? Z.of_nat (length rest)) eqn:E.
  - apply Z.leb_le in E.
    replace ((0 <=? _) && (_ <=? _)) with true
      by (symmetry; apply andb_true_intro; split; apply Z.leb_le; lia).
    reflexivity.
  - apply Z.leb_gt in E.
    replace ((0 <=? _) && (_ <=? _)) with false; [reflexivity|].
    symmetry. apply andb_false_intro2. apply Z.leb_gt. lia.
Qed.

(** Finishes a raw data read of [size] bytes that follows a spelled-out
    header. *)

Ltac finish_raw_read rest :=
  unfold bind at 1, lift at 1;
  erewrite (read_exact_tail _ rest);
  [| lia | nia | reflexivity | cbn [length]; rewrite ?Nat2Z.inj_succ; lia].

Ltac solve_read_lit :=
  lazymatch goal with
  | |- read_exact _ _ _ = _ =>
      apply read_exact_conc; [lia | lia | cbv; reflexivity | reflexivity]
  | |- read_u8 _ _ = _ => unfold read_u8; erewrite bind_step by solve_read_lit; reflexivity
  | |- read_u16 _ _ = _ => unfold read_u16; erewrite bind_step by solve_read_lit; reflexivity
  | |- read_u32 _ _ = _ => unfold read_u32; erewrite bind_step by solve_read_lit; reflexivity
  | |- seek_current _ _ = _ => reflexivity
  end.

(** One step of a [let?] chain over a source whose first bytes are
    spelled out, reading the bytes out as a list and deciding only the
    tests that mention no variable. *)

Ltac read_step_lit :=
  match goal with
  | |- context [bind (lift ?f ?m) ?k ?p] =>
      erewrite (bind_step (lift f m) k p) by (apply lift_step; solve_read_lit); cbv beta zeta
  | |- context [bind (ret ?x) ?k ?p] =>
      rewrite (bind_step (ret x) k p x p) by reflexivity; cbv beta zeta
  | |- context [if ?c then _ else _] =>
      assert_fails (idtac; match c with context [?v] => is_var v end);
      let v := eval vm_compute in c in
      lazymatch v with
      | true => change c with true; cbv beta iota zeta
      | false => change c with false; cbv beta iota zeta
      end
  end.

Lemma next_brush_count_step src dec :
  0 <= count dec ->
  0 <= count (snd (next_brush src dec)) <= Z.max 0 (count dec - 1).
Proof.
  intros H0. destruct (Z.eq_dec (count dec) 0) as [Hc|Hc].
  - rewrite (next_brush_exhausted src dec Hc). cbn. lia.
  - destruct (do_brush_head src (next_brush_pos dec) (rdr dec)) as [[nbp|e|] r] eqn:Eh.
    + rewrite (next_brush_head_ok src dec nbp r Hc Eh). cbn. lia.
    + rewrite (next_brush_head_err src dec e r Hc Eh). cbn. lia.
    + exfalso. exact (do_brush_head_no_panic _ _ _ _ Eh).
Qed.

Lemma iter_next_count src dec k :
  0 <= count dec ->
  0 <= count (iter_next src k dec) <= Z.max 0 (count dec - Z.of_nat k).
Proof.
  revert dec. induction k as [|k IH]; intros dec H0; cbn [iter_next]; [lia|].
  pose proof (next_brush_count_step src dec H0) as Hs.
  specialize (IH (snd (next_brush src dec)) ltac:(lia)). lia.
Qed.

Lemma process_brush_length_at src pre a0 a1 a2 a3 tl r :
  src = pre ++ [a0; a1; a2; a3] ++ tl -> Z.of_nat (length pre) < 2 ^ 63 ->
  process_brush_length src (Z.of_nat (length pre)) r
  = (Ok (Z.land (Z.of_nat (length pre) + 4 + be_value [a0; a1; a2; a3] + 3) not3_u64),
     Z.of_nat (length pre) + 4).
Proof.
  intros Hs Hp. unfold process_brush_length.
  rewrite (bind_step _ _ _ (Z.of_nat (length pre)) (Z.of_nat (length pre))) by reflexivity.
  unfold read_u32.
  rewrite (bind_step _ _ _ (be_value [a0; a1; a2; a3]) (Z.of_nat (length pre) + 4)).
  - assert (H : 0 <= be_value [a0; a1; a2; a3] < 2 ^ 32)
      by exact (be_value_range [a0; a1; a2; a3]).
    unfold ret, add_u64. rewrite (Z.mod_small (_ + 4)) by lia.
    rewrite (Z.mod_small (Z.of_nat (length pre) + 4 + be_value [a0; a1; a2; a3])) by lia.
    rewrite (Z.mod_small (_ + 3)) by lia.
    reflexivity.
  - rewrite (bind_step _ _ _ [a0; a1; a2; a3] (Z.of_nat (length pre) + 4)); [reflexivity|].
    apply (read_exact_at src pre [a0; a1; a2; a3] tl); auto.
Qed.

Lemma process_brush_length_progress src p r nbp r' :
  0 <= p -> p + 2 ^ 32 + 8 <= 2 ^ 64 ->
  process_brush_length src p r = (Ok nbp, r') -> p + 4 <= nbp.
Proof.
  intros H0 Hb H. unfold process_brush_length in H. peel H. subst.
  assert (p0 = p) by (unfold seek_start in Hstep; inversion Hstep; reflexivity).
  subst p0.
  apply read_u32_ok in Hstep0 as (H1 & H2 & H3).
  unfold add_u64.
  rewrite (Z.mod_small (p + 4)) by lia.
  rewrite (Z.mod_small (p + 4 + v0)) by lia.
  rewrite (Z.mod_small (p + 4 + v0 + 3)) by lia.
  rewrite land_not3 by lia.
  pose proof (Z.mod_pos_bound (p + 4 + v0 + 3) 4 ltac:(lia)).
  pose proof (Z.div_mod (p + 4 + v0 + 3) 4 ltac:(lia)).
  lia.
Qed.

Lemma next_brush6_progress src dec :
  0 <= next_brush_pos6 dec -> sample_section_end dec + 2 ^ 32 + 8 <= 2 ^ 64 ->
  sample_section_end (snd (next_brush6 src dec)) = sample_section_end dec /\
  0 <= next_brush_pos6 (snd (next_brush6 src dec)) /\
  Z.min (sample_section_end dec) (next_brush_pos6 dec + 4)
  <= next_brush_pos6 (snd (next_brush6 src dec)).
Proof.
  intros H0 Hb.
  destruct (Z_lt_ge_dec (next_brush_pos6 dec) (sample_section_end dec)) as [Hlt|Hge].
  - destruct (process_brush_length src (next_brush_pos6 dec) (rdr6 dec))
      as [[nbp|e|] r] eqn:Eh.
    + rewrite (next_brush6_head_ok src dec nbp r Hlt Eh). cbn.
      pose proof (process_brush_length_progress src _ _ _ _ H0 ltac:(lia) Eh). lia.
    + rewrite (next_brush6_head_err src dec e r Hlt Eh). cbn. lia.
    + exfalso. exact (process_brush_length_no_panic _ _ _ _ Eh).
  - assert (Hx : sample_section_end dec <= next_brush_pos6 dec) by lia.
    rewrite (next_brush6_exhausted src dec Hx). cbn. lia.
Qed.

Lemma iter_next6_progress src dec k :
  0 <= next_brush_pos6 dec -> sample_section_end dec + 2 ^ 32 + 8 <= 2 ^ 64 ->
  sample_section_end (iter_next6 src k dec) = sample_section_end dec /\
  0 <= next_brush_pos6 (iter_next6 src k dec) /\
  Z.min (sample_section_end dec) (next_brush_pos6 dec + 4 * Z.of_nat k)
  <= next_brush_pos6 (iter_next6 src k dec).
Proof.
  revert dec. induction k as [|k IH]; intros dec H0 Hb; cbn [iter_next6]; [lia|].
  destruct (next_brush6_progress src dec H0 Hb) as (E & P & M).
  destruct (IH (snd (next_brush6 src dec)) P ltac:(lia)) as (E' & P' & M').
  rewrite E in E', M'. lia.
Qed.

Lemma find_sample_skip src pre b tail f :
  src = pre ++ encode_block b ++ tail -> block_skipped b = true ->
  src_len src < 2 ^ 64 ->
  find_sample src (S f) (Z.of_nat (length pre))
  = find_sample src f (Z.of_nat (length (pre ++ encode_block b))).
Proof.
  intros Hsrc Hb HL.
  unfold block_skipped in Hb.
  apply andb_prop in Hb as [Hb Hpl]. apply andb_prop in Hb as [Hb Hkey].
  apply andb_prop in Hb as [Hb Hsig]. apply andb_prop in Hb as [Hb Hl3].
  apply andb_prop in Hb as [Hl1 Hl2].
  apply Nat.eqb_eq in Hl1, Hl2, Hl3. apply negb_true_iff in Hsig, Hkey.
  apply Z.eqb_eq in Hpl.
  destruct b as [sig key len payload]; cbn [blk_sig blk_key blk_len blk_payload] in *.
  unfold encode_block in *; cbn [blk_sig blk_key blk_len blk_payload] in *.
  set (p := Z.of_nat (length pre)).
  assert (HLs : src_len src = p + 12 + Z.of_nat (length payload)
                              + Z.of_nat (length tail)).
  { unfold src_len, p. rewrite Hsrc, !length_app. lia. }
  cbn [find_sample].
  rewrite (bind_step _ _ _ sig (p + 4))
    by (apply lift_step; apply (read_exact_at src pre sig (key ++ len ++ payload ++ tail));
        [rewrite Hsrc; rewrite <- !app_assoc; reflexivity | reflexivity | lia]).
  rewrite Hsig.
  rewrite (bind_step _ _ _ key (p + 4 + 4)).
  2:{ apply lift_step. apply (read_exact_at src (pre ++ sig) key (len ++ payload ++ tail)).
      - rewrite Hsrc. rewrite <- !app_assoc. reflexivity.
      - unfold p. rewrite length_app. lia.
      - lia. }
  rewrite Hkey.
  rewrite (bind_step _ _ _ (be_value len) (p + 4 + 4 + 4)).
  2:{ apply lift_step. unfold read_u32.
      rewrite (bind_step _ _ _ len (p + 4 + 4 + 4)); [reflexivity|].
      apply (read_exact_at src (pre ++ sig ++ key) len (payload ++ tail)).
      - rewrite Hsrc. rewrite <- !app_assoc. reflexivity.
      - unfold p. rewrite !length_app. lia.
      - lia. }
  rewrite (bind_step _ _ _ (p + 4 + 4 + 4 + be_value len) (p + 4 + 4 + 4 + be_value len)).
  2:{ apply lift_step. unfold seek_current.
      replace ((0 <=? _) && (_ <? 2 ^ 64)) with true
        by (symmetry; apply andb_true_intro; split;
            [apply Z.leb_le | apply Z.ltb_lt]; lia).
      reflexivity. }
  f_equal. unfold p. rewrite !length_app. lia.
Qed.

Lemma find_sample_blocks src blocks :
  forall pre tail f,
  src = pre ++ concat (map encode_block blocks) ++ tail ->
  forallb block_skipped blocks = true ->
  src_len src < 2 ^ 64 ->
  find_sample src (length blocks + f) (Z.of_nat (length pre))
  = find_sample src f (Z.of_nat (length (pre ++ concat (map encode_block blocks)))).
Proof.
  induction blocks as [|b bs IH]; intros pre tail f Hsrc Hok HL.
  - cbn. rewrite app_nil_r. reflexivity.
  - cbn [forallb] in Hok. apply andb_prop in Hok as [Hb Hbs].
    cbn [map concat length plus] in *.
    rewrite (find_sample_skip src pre b (concat (map encode_block bs) ++ tail) _)
      by (try assumption; rewrite Hsrc; rewrite <- !app_assoc; reflexivity).
    rewrite (IH (pre ++ encode_block b) tail f)
      by (try assumption; rewrite Hsrc; rewrite <- !app_assoc; reflexivity).
    rewrite <- app_assoc. reflexivity.
Qed.

Lemma find_sample_samp src pre sig rest f :
  src = pre ++ sig ++ tag_samp ++ rest -> length sig = 4%nat ->
  bytes_eqb sig tag_8bim = false ->
  find_sample src (S f) (Z.of_nat (length pre)) = (Ok tt, Z.of_nat (length pre) + 4 + 4).
Proof.
  intros Hsrc Hl Hsig. cbn [find_sample].
  rewrite (bind_step _ _ _ sig (Z.of_nat (length pre) + 4))
    by (apply lift_step; apply (read_exact_at src pre sig (tag_samp ++ rest)); auto; lia).
  rewrite Hsig.
  rewrite (bind_step _ _ _ tag_samp (Z.of_nat (length pre) + 4 + 4)).
  - reflexivity.
  - apply lift_step. apply (read_exact_at src (pre ++ sig) tag_samp rest).
    + rewrite Hsrc, <- app_assoc. reflexivity.
    + rewrite length_app. lia.
    + reflexivity.
Qed.

Lemma find_sample_eof src pre tl f :
  src = pre ++ tl -> (length tl < 4)%nat ->
  find_sample src (S f) (Z.of_nat (length pre))
  = (Err (OpenIoError UnexpectedEof), Z.of_nat (length pre)).
Proof.
  intros Hsrc Hl. cbn [find_sample]. unfold bind at 1, lift at 1, read_exact, src_len.
  replace ((0 <=? _) && (_ <=? _)) with false; [reflexivity|].
  symmetry. apply andb_false_intro2. apply Z.leb_gt.
  rewrite Hsrc, length_app. lia.
Qed.

Lemma fuel_split src blocks (tail : list Byte.byte) pre :
  src = pre ++ concat (map encode_block blocks) ++ tail ->
  forallb block_skipped blocks = true ->
  S (length src) = (length blocks + S (length src - length blocks))%nat.
Proof.
  intros Hsrc Hok. pose proof (encoded_blocks_length blocks Hok).
  assert (length blocks <= length src)%nat
    by (rewrite Hsrc, !length_app; lia).
  lia.
Qed.

Lemma open6_at_samp pre blocks sig lenb rest sv :
  forallb block_skipped blocks = true ->
  length sig = 4%nat -> bytes_eqb sig tag_8bim = false -> length lenb = 4%nat ->
  src_len (pre ++ concat (map encode_block blocks) ++ sig ++ tag_samp ++ lenb ++ rest)
  < 2 ^ 63 ->
  open6 (pre ++ concat (map encode_block blocks) ++ sig ++ tag_samp ++ lenb ++ rest)
        (Z.of_nat (length pre)) sv
  = Ok (mkAbr6Decoder
          (Z.of_nat (length (pre ++ concat (map encode_block blocks))) + 12) sv
          (Z.of_nat (length (pre ++ concat (map encode_block blocks))) + 12 + be_value lenb)
          (Z.of_nat (length (pre ++ concat (map encode_block blocks))) + 12)).
Proof.
  intros Hok Hsig H8 Hlen HL.
  set (src := pre ++ concat (map encode_block blocks) ++ sig ++ tag_samp ++ lenb ++ rest) in *.
  set (q := Z.of_nat (length (pre ++ concat (map encode_block blocks)))).
  assert (HLq : q + 12 + Z.of_nat (length rest) = src_len src).
  { unfold q, src, src_len. rewrite !length_app.
    cbn [length tag_samp]. lia. }
  assert (Hq0 : 0 <= q) by (unfold q; lia).
  pose proof (be_value_range lenb) as Hv. rewrite Hlen in Hv.
  change (256 ^ Z.of_nat 4) with (2 ^ 32) in Hv.
  unfold open6, open6_steps.
  rewrite (fuel_split src blocks (sig ++ tag_samp ++ lenb ++ rest) pre eq_refl Hok).
  rewrite (bind_step _ _ _ tt (q + 4 + 4)).
  2:{ rewrite (find_sample_blocks src blocks pre (sig ++ tag_samp ++ lenb ++ rest))
        by (auto; lia).
      apply (find_sample_samp src (pre ++ concat (map encode_block blocks)) sig (lenb ++ rest));
        auto.
      unfold src. rewrite <- app_assoc. reflexivity. }
  rewrite (bind_step _ _ _ (be_value lenb) (q + 4 + 4 + 4)).
  2:{ apply lift_step. unfold read_u32.
      rewrite (bind_step _ _ _ lenb (q + 4 + 4 + 4)); [reflexivity|].
      apply (read_exact_at src (pre ++ concat (map encode_block blocks) ++ sig ++ tag_samp)
                           lenb rest).
      - unfold src. rewrite <- !app_assoc. reflexivity.
      - unfold q. rewrite !length_app. cbn [length tag_samp]. lia.
      - lia. }
  rewrite (bind_step _ _ _ (q + 4 + 4 + 4) (q + 4 + 4 + 4)).
  2:{ apply lift_step. unfold tell, seek_current.
      replace ((0 <=? _) && (_ <? 2 ^ 64)) with true
        by (symmetry; apply andb_true_intro; split;
            [apply Z.leb_le | apply Z.ltb_lt]; lia).
      rewrite Z.add_0_r. reflexivity. }
  unfold ret, add_u64. rewrite Z.mod_small by lia.
  replace (q + 4 + 4 + 4) with (q + 12) by lia. reflexivity.
Qed.

(** X1: legacy record framing.  When a live legacy decoder's next record
    starts at [p] with the 16-bit big-endian length field [L], the call
    parses the body from [p + 2], decrements the count, and commits
    [p + 2 + L] as the next record position, whatever the body does. *)
Theorem legacy_record_framing src pre h0 h1 tl dec :
  src = pre ++ [h0; h1] ++ tl ->
  next_brush_pos dec = Z.of_nat (length pre) ->
  count dec <> 0 ->
  Z.of_nat (length pre) < 2 ^ 63 ->
  next_brush src dec
  = (Some (fst (do_brush_body src (version dec) (next_brush_pos dec + 2))),
     mkDecoder (snd (do_brush_body src (version dec) (next_brush_pos dec + 2)))
               (version dec) (count dec - 1) (next_brush_pos dec + 2 + be_value [h0; h1])).
Proof. exact (next_brush_framing src pre h0 h1 tl dec). Qed.

Lemma legacy_record_framing_witness :
  next_brush legacy_sample_src (mkDecoder 0 2 1 0)
  = (Some (fst (do_brush_body legacy_sample_src 2 (0 + 2))),
     mkDecoder (snd (do_brush_body legacy_sample_src 2 (0 + 2))) 2 (1 - 1)
               (0 + 2 + be_value [x00; x32])).
Proof.
  apply (legacy_record_framing legacy_sample_src [] x00 x32 (skipn 2 legacy_sample_src)
           (mkDecoder 0 2 1 0));
    [vm_compute; reflexivity | reflexivity | cbn; lia | cbn; lia].
Defined.

(** X2: when fewer than 2 bytes remain at the legacy decoder's next record
    position, a live call returns an [UnexpectedEof] I/O error, sets the
    count to 0 and keeps the record position. *)
Theorem legacy_header_truncated src dec :
  count dec <> 0 -> src_len src < next_brush_pos dec + 2 ->
  next_brush src dec
  = (Some (Err (IoError UnexpectedEof)),
     mkDecoder (next_brush_pos dec) (version dec) 0 (next_brush_pos dec)).
Proof.
  intros Hc HL. apply (next_brush_head_err src dec UnexpectedEof (next_brush_pos dec) Hc).
  unfold do_brush_head, read_u16, bind, seek_start, read_exact.
  replace ((0 <=? _) && (_ <=? _)) with false; [reflexivity|].
  symmetry. apply andb_false_intro2. apply Z.leb_gt. lia.
Qed.

Lemma legacy_header_truncated_witness :
  next_brush legacy_truncated_src (mkDecoder 0 1 1 0)
  = (Some (Err (IoError UnexpectedEof)), mkDecoder 0 1 0 0).
Proof.
  apply (legacy_header_truncated legacy_truncated_src (mkDecoder 0 1 1 0));
    [cbn; lia | vm_compute; reflexivity].
Defined.

(** X3: a legacy record whose 16-bit brush type (right after the length
    field) is not 2 makes the call return [UnsupportedBrushType] carrying
    that exact value; nothing past the type is read, and the decoder still
    moves on to the next record. *)
Theorem legacy_type_rejected src pre h0 h1 t0 t1 tl dec :
  src = pre ++ [h0; h1; t0; t1] ++ tl ->
  next_brush_pos dec = Z.of_nat (length pre) ->
  count dec <> 0 ->
  Z.of_nat (length pre) < 2 ^ 63 ->
  be_value [t0; t1] <> 2 ->
  next_brush src dec
  = (Some (Err (UnsupportedBrushType (be_value [t0; t1]))),
     mkDecoder (next_brush_pos dec + 2 + 2) (version dec) (count dec - 1)
               (next_brush_pos dec + 2 + be_value [h0; h1])).
Proof.
  intros Hs Hp Hc HL Ht.
  rewrite (next_brush_framing src pre h0 h1 ([t0; t1] ++ tl) dec) by (auto; rewrite Hs; reflexivity).
  unfold do_brush_body.
  rewrite (bind_step _ _ _ (be_value [t0; t1]) (next_brush_pos dec + 2 + 2)).
  - apply Z.eqb_neq in Ht. rewrite Ht. reflexivity.
  - apply lift_step. unfold read_u16.
    rewrite (bind_step _ _ _ [t0; t1] (next_brush_pos dec + 2 + 2)); [reflexivity|].
    apply (read_exact_at src (pre ++ [h0; h1]) [t0; t1] tl).
    + rewrite Hs, <- app_assoc. reflexivity.
    + rewrite length_app, Hp. cbn [length]. lia.
    + reflexivity.
Qed.

Lemma legacy_type_rejected_witness :
  next_brush legacy_badtype_src (mkDecoder 0 2 2 0)
  = (Some (Err (UnsupportedBrushType (be_value [x00; x03]))),
     mkDecoder (0 + 2 + 2) 2 (2 - 1) (0 + 2 + be_value [x00; x02])).
Proof.
  apply (legacy_type_rejected legacy_badtype_src [] x00 x02 x00 x03
           (skipn 4 legacy_badtype_src) (mkDecoder 0 2 2 0));
    [vm_compute; reflexivity | reflexivity | cbn; lia | cbn; lia | vm_compute; lia].
Defined.

(** X4: legacy body of a version other than 2 (no name string), type 2,
    depth 8, not compressed: the brush has width right - left and height
    bottom - top (u16 wrap-around), and its data are exactly the first
    width * height bytes after the compression flag; if fewer bytes remain
    the body fails with [UnexpectedEof] (never a short or padded buffer). *)
Theorem legacy_raw_body (v : Z) (m0 m1 m2 m3 s0 s1 aa t0 t1 l0 l1 b0 b1 r0 r1 : Byte.byte)
    (lb rest : list Byte.byte) :
  v <> 2 -> length lb = 16%nat ->
  let w := sub_u16 (be_value [r0; r1]) (be_value [l0; l1]) in
  let h := sub_u16 (be_value [b0; b1]) (be_value [t0; t1]) in
  fst (do_brush_body (([x00; x02; m0; m1; m2; m3; s0; s1; aa;
                        t0; t1; l0; l1; b0; b1; r0; r1] ++ lb ++ [x00; x08; x00]) ++ rest) v 0)
  = if w * h <=? Z.of_nat (length rest)
    then Ok (mkImageBrush w h 8 (firstn (Z.to_nat (w * h)) rest))
    else Err (IoError UnexpectedEof).
Proof.
  intros Hv Hlb w h.
  assert (0 <= w < 2 ^ 16) by apply sub_u16_range.
  assert (0 <= h < 2 ^ 16) by apply sub_u16_range.
  apply Z.eqb_neq in Hv.
  do 16 (destruct lb as [|? lb]; [discriminate|]).
  destruct lb; [|discriminate].
  unfold do_brush_body. rewrite Hv. cbn [app].
  repeat read_step_lit.
  change (Z.shiftr (be_value [x00; x08]) 3) with 1.
  change (be_value [x00; x08]) with 8.
  rewrite mul_usize_exact by lia. fold w h.
  rewrite bind_assoc_at.
  erewrite (bind_step (vec_zeroed _)) by (apply vec_zeroed_ok; unfold isize_max; nia).
  cbv beta.
  finish_raw_read rest.
  destruct (w * h <=? Z.of_nat (length rest)); reflexivity.
Qed.

Lemma legacy_raw_body_witness :
  fst (do_brush_body (([x00; x02; x00; x00; x00; x00; x00; x00; x00;
                        x00; x00; x00; x00; x00; x01; x00; x02] ++ repeat x00 16 ++
                       [x00; x08; x00]) ++ [x0a; x0b; x0c]) 1 0)
  = Ok (mkImageBrush 2 1 8 [x0a; x0b]).
Proof.
  exact (legacy_raw_body 1 x00 x00 x00 x00 x00 x00 x00 x00 x00 x00 x00 x00 x01 x00 x02
           (repeat x00 16) [x0a; x0b; x0c] ltac:(lia) eq_refl).
Defined.

(** X5: legacy body of a version other than 2, type 2: a depth field other
    than 8 gives [UnsupportedBitDepth] carrying that exact value, whatever
    the other fields and the bytes after the depth. *)
Theorem legacy_depth_rejected (v : Z) (fields rest : list Byte.byte) (d0 d1 : Byte.byte) :
  v <> 2 -> length fields = 31%nat ->
  be_value [d0; d1] <> 8 ->
  fst (do_brush_body ([x00; x02] ++ fields ++ [d0; d1] ++ rest) v 0)
  = Err (UnsupportedBitDepth (be_value [d0; d1])).
Proof.
  intros Hv Hf Hd. apply Z.eqb_neq in Hv, Hd.
  do 31 (destruct fields as [|? fields]; [discriminate|]).
  destruct fields; [|discriminate].
  unfold do_brush_body. rewrite Hv. cbn [app].
  repeat read_step_lit.
  rewrite Hd. reflexivity.
Qed.

Lemma legacy_depth_rejected_witness :
  fst (do_brush_body ([x00; x02] ++ repeat x00 31 ++ [x00; x10] ++ []) 1 0)
  = Err (UnsupportedBitDepth 16).
Proof.
  apply (legacy_depth_rejected 1 (repeat x00 31) [] x00 x10);
    [lia | reflexivity | vm_compute; lia].
Defined.

(** X6: on any input, a legacy decoder returns [None] on every call from
    number [count] on: at most [count] calls return a brush or an error. *)
Theorem legacy_at_most_count src dec k :
  0 <= count dec -> count dec <= Z.of_nat k -> call_out src k dec = None.
Proof.
  intros H0 Hk. unfold call_out.
  pose proof (iter_next_count src dec k H0) as Hc.
  rewrite next_brush_exhausted by lia. reflexivity.
Qed.

Lemma legacy_at_most_count_witness :
  call_out legacy_sample_src 1 (mkDecoder 0 2 1 0) = None.
Proof.
  apply (legacy_at_most_count legacy_sample_src (mkDecoder 0 2 1 0) 1); cbn; lia.
Defined.

(** X7: generation-6 record framing.  On a call with the offset [p] before
    the section end and the 32-bit big-endian length [L] at [p], the body
    is parsed from [p + 4] and the new offset is the least multiple of 4
    (as an absolute stream position) not below [p + 4 + L]. *)
Theorem gen6_length_step src pre a0 a1 a2 a3 tl dec :
  src = pre ++ [a0; a1; a2; a3] ++ tl ->
  next_brush_pos6 dec = Z.of_nat (length pre) ->
  next_brush_pos6 dec < sample_section_end dec ->
  Z.of_nat (length pre) < 2 ^ 63 ->
  fst (next_brush6 src dec)
  = Some (fst (process_brush_body src (subversion dec) (next_brush_pos6 dec + 4))) /\
  next_brush_pos6 (snd (next_brush6 src dec)) mod 4 = 0 /\
  next_brush_pos6 dec + 4 + be_value [a0; a1; a2; a3]
  <= next_brush_pos6 (snd (next_brush6 src dec))
  < next_brush_pos6 dec + 4 + be_value [a0; a1; a2; a3] + 4.
Proof.
  intros Hs Hp Hlt HL.
  pose proof (process_brush_length_at src pre a0 a1 a2 a3 tl (rdr6 dec) Hs HL) as Hh.
  rewrite <- Hp in Hh.
  rewrite (next_brush6_head_ok src dec _ _ Hlt Hh). cbn [fst snd next_brush_pos6].
  assert (Hv : 0 <= be_value [a0; a1; a2; a3] < 2 ^ 32)
    by exact (be_value_range [a0; a1; a2; a3]).
  rewrite land_not3 by lia.
  set (x := next_brush_pos6 dec + 4 + be_value [a0; a1; a2; a3]) in *.
  pose proof (Z.mod_pos_bound (x + 3) 4 ltac:(lia)).
  pose proof (Z.div_mod (x + 3) 4 ltac:(lia)).
  split; [reflexivity|]. split; [apply Z.mod_mul; lia | lia].
Qed.

Lemma gen6_length_step_witness :
  fst (next_brush6 gen6_unaligned_src (mkAbr6Decoder 25 1 33 25))
  = Some (fst (process_brush_body gen6_unaligned_src 1 (25 + 4))) /\
  next_brush_pos6 (snd (next_brush6 gen6_unaligned_src (mkAbr6Decoder 25 1 33 25))) mod 4 = 0 /\
  25 + 4 + be_value [x00; x00; x00; x00]
  <= next_brush_pos6 (snd (next_brush6 gen6_unaligned_src (mkAbr6Decoder 25 1 33 25)))
  < 25 + 4 + be_value [x00; x00; x00; x00] + 4.
Proof.
  apply (gen6_length_step gen6_unaligned_src (firstn 25 gen6_unaligned_src) x00 x00 x00 x00
           (skipn 29 gen6_unaligned_src) (mkAbr6Decoder 25 1 33 25));
    [vm_compute; reflexivity | reflexivity | cbn; lia | vm_compute; reflexivity].
Defined.

(** X8: when fewer than 4 bytes remain at the generation-6 offset (before
    the section end), the call returns an [UnexpectedEof] I/O error and
    sets the offset to the section end. *)
Theorem gen6_header_truncated src dec :
  next_brush_pos6 dec < sample_section_end dec ->
  src_len src < next_brush_pos6 dec + 4 ->
  next_brush6 src dec
  = (Some (Err (IoError UnexpectedEof)),
     mkAbr6Decoder (next_brush_pos6 dec) (subversion dec) (sample_section_end dec)
                   (sample_section_end dec)).
Proof.
  intros Hlt HL.
  apply (next_brush6_head_err src dec UnexpectedEof (next_brush_pos6 dec) Hlt).
  unfold process_brush_length, read_u32, bind, seek_start, read_exact.
  replace ((0 <=? _) && (_ <=? _)) with false; [reflexivity|].
  symmetry. apply andb_false_intro2. apply Z.leb_gt. lia.
Qed.

Lemma gen6_header_truncated_witness :
  next_brush6 gen6_truncated_src (mkAbr6Decoder 12 1 20 12)
  = (Some (Err (IoError UnexpectedEof)), mkAbr6Decoder 12 1 20 20).
Proof.
  apply (gen6_header_truncated gen6_truncated_src (mkAbr6Decoder 12 1 20 12));
    [cbn; lia | vm_compute; reflexivity].
Defined.

(** X9: generation-6 body at any offset: the reader skips 47 bytes for
    sub-variant 1 and 301 bytes for any other sub-variant, then reads the
    32-bit bounds; with depth 8 and no compression, width = right - left
    and height = bottom - top (u32 wrap-around).  If width * height exceeds
    [isize::MAX], [vec![0; size]] panics.  Otherwise the data are exactly
    the next width * height bytes, or the body fails with [UnexpectedEof]
    when fewer bytes remain. *)
Theorem gen6_raw_body (sv : Z) (pre skip rest : list Byte.byte)
    (t0 t1 t2 t3 l0 l1 l2 l3 b0 b1 b2 b3 r0 r1 r2 r3 : Byte.byte) :
  length skip = (if (sv =? 1)%Z then 47%nat else 301%nat) ->
  Z.of_nat (length pre) < 2 ^ 63 ->
  let w := sub_u32 (be_value [r0; r1; r2; r3]) (be_value [l0; l1; l2; l3]) in
  let h := sub_u32 (be_value [b0; b1; b2; b3]) (be_value [t0; t1; t2; t3]) in
  fst (process_brush_body (pre ++ skip ++ [t0; t1; t2; t3; l0; l1; l2; l3;
                                          b0; b1; b2; b3; r0; r1; r2; r3] ++
                                  [x00; x08; x00] ++ rest) sv (Z.of_nat (length pre)))
  = if isize_max <? w * h then Panic
    else if w * h <=? Z.of_nat (length rest)
    then Ok (mkSampleBrush w h 8 (firstn (Z.to_nat (w * h)) rest))
    else Err (IoError UnexpectedEof).
Proof.
  intros Hs Hp w h.
  pose proof (gen6_body_layout sv pre skip rest t0 t1 t2 t3 l0 l1 l2 l3 b0 b1 b2 b3
                r0 r1 r2 r3 x00 Hs Hp) as H.
  cbv zeta in H. rewrite H. reflexivity.
Qed.

Lemma gen6_raw_body_witness :
  fst (process_brush_body ([] ++ repeat x00 301 ++
                           [x00; x00; x00; x00; x00; x00; x00; x00;
                            x00; x00; x00; x01; x00; x00; x00; x03] ++
                           [x00; x08; x00] ++ [x01; x02; x03]) 2 0)
  = Ok (mkSampleBrush 3 1 8 [x01; x02; x03]) /\
  fst (process_brush_body ([] ++ repeat x00 47 ++
                           [x00; x00; x00; x00; x00; x00; x00; x00;
                            xff; xff; xff; xff; xff; xff; xff; xff] ++
                           [x00; x08; x00] ++ []) 1 0)
  = Panic.
Proof.
  split.
  - exact (gen6_raw_body 2 [] (repeat x00 301) [x01; x02; x03]
             x00 x00 x00 x00 x00 x00 x00 x00 x00 x00 x00 x01 x00 x00 x00 x03 eq_refl eq_refl).
  - exact (gen6_raw_body 1 [] (repeat x00 47) []
             x00 x00 x00 x00 x00 x00 x00 x00 xff xff xff xff xff xff xff xff eq_refl eq_refl).
Defined.

(** X10: generation-6 body: a depth field other than 8 (after the skipped
    bytes and the four 32-bit bounds) gives [UnsupportedBitDepth] carrying
    that exact value. *)
Theorem gen6_depth_rejected (sv : Z) (pre rest : list Byte.byte) (d0 d1 : Byte.byte) :
  length pre = ((if (sv =? 1)%Z then 47 else 301) + 16)%nat ->
  be_value [d0; d1] <> 8 ->
  fst (process_brush_body (pre ++ [d0; d1] ++ rest) sv 0)
  = Err (UnsupportedBitDepth (be_value [d0; d1])).
Proof.
  intros Hpre Hd. apply Z.eqb_neq in Hd.
  unfold process_brush_body.
  destruct (sv =? 1);
  [do 63 (destruct pre as [|? pre]; [discriminate|])
  |do 317 (destruct pre as [|? pre]; [discriminate|])];
  (destruct pre; [|discriminate]);
  cbn [app];
  repeat read_step_lit;
  rewrite Hd; reflexivity.
Qed.

Lemma gen6_depth_rejected_witness :
  fst (process_brush_body (repeat x00 63 ++ [x00; x10] ++ []) 1 0)
  = Err (UnsupportedBitDepth 16).
Proof.
  apply (gen6_depth_rejected 1 (repeat x00 63) [] x00 x10);
    [reflexivity | vm_compute; lia].
Defined.

(** X11: generation-6 iteration terminates: from offset [p], every call
    from number k on returns [None] once p + 4k reaches the section end
    (each call moves the offset forward by at least 4 or to the section
    end), provided the section end leaves room for one more length field
    below 2^64. *)
Theorem gen6_iteration_bound src dec k :
  0 <= next_brush_pos6 dec ->
  sample_section_end dec + 2 ^ 32 + 8 <= 2 ^ 64 ->
  sample_section_end dec <= next_brush_pos6 dec + 4 * Z.of_nat k ->
  call_out6 src k dec = None.
Proof.
  intros H0 Hb Hk. unfold call_out6.
  destruct (iter_next6_progress src dec k H0 Hb) as (E & _ & M).
  rewrite next_brush6_exhausted by lia. reflexivity.
Qed.

Lemma gen6_iteration_bound_witness :
  call_out6 gen6_unaligned_src 2 (mkAbr6Decoder 25 1 33 25) = None.
Proof.
  apply (gen6_iteration_bound gen6_unaligned_src (mkAbr6Decoder 25 1 33 25) 2); cbn; lia.
Defined.

(** X12: generation-6 [open] steps over any well-formed blocks that are
    neither "8bim"-signed nor "samp"-keyed, stops at a "samp"-keyed block
    with any other 4-byte signature (for instance the "8BIM" of real
    files), and positions the decoder right after its 32-bit length:
    offset = that position, section end = offset + length. *)
Theorem gen6_open_positions pre blocks sig lenb rest sv :
  forallb block_skipped blocks = true ->
  length sig = 4%nat -> bytes_eqb sig tag_8bim = false -> length lenb = 4%nat ->
  src_len (pre ++ concat (map encode_block blocks) ++ sig ++ tag_samp ++ lenb ++ rest)
  < 2 ^ 63 ->
  open6 (pre ++ concat (map encode_block blocks) ++ sig ++ tag_samp ++ lenb ++ rest)
        (Z.of_nat (length pre)) sv
  = Ok (mkAbr6Decoder
          (Z.of_nat (length (pre ++ concat (map encode_block blocks))) + 12) sv
          (Z.of_nat (length (pre ++ concat (map encode_block blocks))) + 12 + be_value lenb)
          (Z.of_nat (length (pre ++ concat (map encode_block blocks))) + 12)).
Proof. exact (open6_at_samp pre blocks sig lenb rest sv). Qed.

Lemma gen6_open_positions_witness :
  open6 ([] ++ concat (map encode_block
                          [mkResourceBlock (bytes_of [97; 98; 99; 100])
                                           (bytes_of [101; 102; 103; 104])
                                           (bytes_of [0; 0; 0; 1]) (bytes_of [7])])
            ++ [x38; x42; x49; x4d] ++ tag_samp ++ [x00; x00; x00; x08] ++ repeat x00 8)
        (Z.of_nat (length (@nil Byte.byte))) 1
  = Ok (mkAbr6Decoder 25 1 33 25).
Proof.
  apply (gen6_open_positions []
           [mkResourceBlock (bytes_of [97; 98; 99; 100]) (bytes_of [101; 102; 103; 104])
                            (bytes_of [0; 0; 0; 1]) (bytes_of [7])]
           [x38; x42; x49; x4d] [x00; x00; x00; x08] (repeat x00 8) 1);
    vm_compute; reflexivity.
Defined.

(** X13: a "samp" block of declared length 0 opens successfully but gives a
    decoder whose every call returns [None]. *)
Theorem gen6_open_empty_section pre blocks sig rest sv :
  forallb block_skipped blocks = true ->
  length sig = 4%nat -> bytes_eqb sig tag_8bim = false ->
  src_len (pre ++ concat (map encode_block blocks) ++ sig ++ tag_samp ++
           [x00; x00; x00; x00] ++ rest) < 2 ^ 63 ->
  exists dec,
    open6 (pre ++ concat (map encode_block blocks) ++ sig ++ tag_samp ++
           [x00; x00; x00; x00] ++ rest) (Z.of_nat (length pre)) sv = Ok dec /\
    forall k, call_out6 (pre ++ concat (map encode_block blocks) ++ sig ++ tag_samp ++
                         [x00; x00; x00; x00] ++ rest) k dec = None.
Proof.
  intros Hok Hsig H8 HL.
  eexists. split; [exact (open6_at_samp pre blocks sig [x00; x00; x00; x00] rest sv Hok Hsig H8 eq_refl HL)|].
  intros k. unfold call_out6.
  match goal with |- context [iter_next6 ?s k ?d] =>
    assert (Hn : next_brush6 s d = (None, d))
      by (apply next_brush6_exhausted; cbn [sample_section_end next_brush_pos6];
          change (be_value [x00; x00; x00; x00]) with 0; lia);
    rewrite (iter_next6_fixed s d Hn k), Hn; reflexivity
  end.
Qed.

Lemma gen6_open_empty_section_witness :
  exists dec,
    open6 ([] ++ concat (map encode_block
                            [mkResourceBlock (bytes_of [97; 98; 99; 100])
                                             (bytes_of [101; 102; 103; 104])
                                             (bytes_of [0; 0; 0; 1]) (bytes_of [7])])
              ++ [x38; x42; x49; x4d] ++ tag_samp ++ [x00; x00; x00; x00] ++ [])
          (Z.of_nat (length (@nil Byte.byte))) 1 = Ok dec /\
    forall k, call_out6 ([] ++ concat (map encode_block
                                         [mkResourceBlock (bytes_of [97; 98; 99; 100])
                                                          (bytes_of [101; 102; 103; 104])
                                                          (bytes_of [0; 0; 0; 1])
                                                          (bytes_of [7])])
                           ++ [x38; x42; x49; x4d] ++ tag_samp ++ [x00; x00; x00; x00] ++ [])
                        k dec = None.
Proof.
  apply (gen6_open_empty_section []
           [mkResourceBlock (bytes_of [97; 98; 99; 100]) (bytes_of [101; 102; 103; 104])
                            (bytes_of [0; 0; 0; 1]) (bytes_of [7])]
           [x38; x42; x49; x4d] [] 1);
    vm_compute; reflexivity.
Defined.

(** X14: when the stream ends (fewer than 4 bytes left) after well-formed
    skipped blocks, without any "8bim" or "samp" block, generation-6 [open]
    fails with an [UnexpectedEof] I/O error, not with [Found8bim]. *)
Theorem gen6_open_no_section pre blocks tl sv :
  forallb block_skipped blocks = true ->
  (length tl < 4)%nat ->
  src_len (pre ++ concat (map encode_block blocks) ++ tl) < 2 ^ 64 ->
  open6 (pre ++ concat (map encode_block blocks) ++ tl) (Z.of_nat (length pre)) sv
  = Err (OpenIoError UnexpectedEof).
Proof.
  intros Hok Htl HL.
  set (src := pre ++ concat (map encode_block blocks) ++ tl) in *.
  unfold open6, open6_steps.
  rewrite (fuel_split src blocks tl pre eq_refl Hok).
  unfold bind at 1.
  rewrite (find_sample_blocks src blocks pre tl) by auto.
  rewrite (find_sample_eof src (pre ++ concat (map encode_block blocks)) tl)
    by (auto; unfold src; rewrite <- app_assoc; reflexivity).
  reflexivity.
Qed.

Lemma gen6_open_no_section_witness :
  open6 ([] ++ concat (map encode_block
                          [mkResourceBlock (bytes_of [97; 98; 99; 100])
                                           (bytes_of [101; 102; 103; 104])
                                           (bytes_of [0; 0; 0; 1]) (bytes_of [7])])
            ++ [x01])
        (Z.of_nat (length (@nil Byte.byte))) 1
  = Err (OpenIoError UnexpectedEof).
Proof.
  apply (gen6_open_no_section []
           [mkResourceBlock (bytes_of [97; 98; 99; 100]) (bytes_of [101; 102; 103; 104])
                            (bytes_of [0; 0; 0; 1]) (bytes_of [7])]
           [x01] 1);
    [vm_compute; reflexivity | cbn; lia | vm_compute; reflexivity].
Defined.

(** X15: for both decoders, the outputs of all future calls do not depend
    on where the reader's cursor was left (each call seeks to an absolute
    record position first). *)
Theorem decoders_cursor_independent src :
  (forall dec r2 k,
     call_out src k dec
     = call_out src k (mkDecoder r2 (version dec) (count dec) (next_brush_pos dec))) /\
  (forall dec r2 k,
     call_out6 src k dec
     = call_out6 src k (mkAbr6Decoder r2 (subversion dec) (sample_section_end dec)
                                      (next_brush_pos6 dec))).
Proof.
  split; intros dec r2 k.
  - apply call_out_cursor_irrelevant.
  - apply call_out6_cursor_irrelevant.
Qed.
